(** * Trust-gated execution of actions: the ActionContainer controller

    A shallow embedding of [src/ui/ActionLayout.tsx] (the ActionContainer
    component: admission check, execution reducer, the [execute] handler,
    the rendered button and input lists, the disclaimer with its override)
    together with the properties the specification states about it.

    Conventions.
    - A JavaScript value that may be [null] or [undefined] is an [option].
    - Object identity ([===] on ActionComponent objects) is equality of the
      [ref] field, the address of the object.
    - [Record<Source, SecurityLevel>] is a total function on [Source].
    - An awaited call either returns a value or throws ([outcome]). *)

From Stdlib Require Import List String Bool Arith Lia.
Import ListNotations.
Local Open Scope string_scope.
Local Open Scope bool_scope.

(** ** Trust vocabulary *)

(** Modelled from the spec: the [ExtendedActionState] type of [../api] is
    not among the sources; spec 3, TrustLevel, gives its three values, which
    the source compares against as ['trusted'], ['unknown'], ['malicious']. *)
Inductive ExtendedActionState : Type :=
| trusted
| unknown
| malicious.

(** Modelled from the spec: the [SecurityLevel] type of [../shared] is not
    among the sources; the spec gives a closed set of three thresholds
    (only trusted admitted, trusted and unknown admitted, admit all).  The
    source names the strictest one, ['only-trusted']. *)
Inductive SecurityLevel : Type :=
| only_trusted
| non_malicious
| all.

(** [type Source = 'websites' | 'interstitials' | 'actions'] *)
Inductive Source : Type :=
| websites
| interstitials
| actions.

(** [type NormalizedSecurityLevel = Record<Source, SecurityLevel>] *)
Definition NormalizedSecurityLevel : Type := Source -> SecurityLevel.

(** The [securityLevel] prop: [SecurityLevel | NormalizedSecurityLevel]. *)
Inductive SecurityLevelProp : Type :=
| Uniform (level : SecurityLevel)
| PerSource (levels : NormalizedSecurityLevel).

Definition DEFAULT_SECURITY_LEVEL : SecurityLevel := only_trusted.
Definition SOFT_LIMIT_BUTTONS : nat := 10.
Definition SOFT_LIMIT_INPUTS : nat := 3.

(** The [useMemo] that expands a single level to the three-key form. *)
Definition normalizedSecurityLevel (securityLevel : SecurityLevelProp)
  : NormalizedSecurityLevel :=
  match securityLevel with
  | Uniform level => fun _ => level
  | PerSource levels => levels
  end.

Definition state_eqb (a b : ExtendedActionState) : bool :=
  match a, b with
  | trusted, trusted | unknown, unknown | malicious, malicious => true
  | _, _ => false
  end.

(** [a !== b] on two possibly undefined trust levels. *)
Definition opt_state_neqb (a b : option ExtendedActionState) : bool :=
  match a, b with
  | None, None => false
  | Some x, Some y => negb (state_eqb x y)
  | _, _ => true
  end.

(** [ActionStateWithOrigin]: a union of [{action}] and
    [{action, origin, originType}]; the origin carries its source. *)
Record ActionStateWithOrigin : Type := mkActionState {
  state_action : ExtendedActionState;
  state_origin : option (ExtendedActionState * Source)
}.

Definition origin_level (s : ActionStateWithOrigin) : option ExtendedActionState :=
  option_map fst (state_origin s).

(** ** External collaborators

    [checkSecurity] lives in [../shared], [mergeActionStates] in [../api]
    and [isInterstitial] in [../utils/interstitial-url]; none of them is
    among the sources.  The controller is parametrised by them. *)
Class Shared : Type := {
  checkSecurity : ExtendedActionState -> SecurityLevel -> bool
}.

Class Api : Type := {
  mergeActionStates : list ExtendedActionState -> ExtendedActionState
}.

Class Utils : Type := {
  isInterstitial : string -> bool
}.

(** Modelled from the spec: [checkSecurity] is missing from the sources.
    Spec 4.2, [admits]: the strictest policy admits only [trusted], the
    middle one [trusted] and [unknown] but not [malicious], the permissive
    one everything. *)
Definition spec_checkSecurity (state : ExtendedActionState)
  (securityLevel : SecurityLevel) : bool :=
  match securityLevel with
  | only_trusted => state_eqb state trusted
  | non_malicious => negb (state_eqb state malicious)
  | all => true
  end.

(** Modelled from the spec: [mergeActionStates] is missing from the
    sources.  Spec 3 and 4.2, [merge]: most restrictive wins, with
    [malicious] above [unknown] above [trusted]. *)
Definition more_restrictive (a b : ExtendedActionState) : ExtendedActionState :=
  match a, b with
  | malicious, _ | _, malicious => malicious
  | unknown, _ | _, unknown => unknown
  | trusted, trusted => trusted
  end.

Definition spec_mergeActionStates (states : list ExtendedActionState)
  : ExtendedActionState :=
  fold_right more_restrictive trusted states.

#[export] Instance spec_Shared : Shared := {| checkSecurity := spec_checkSecurity |}.
#[export] Instance spec_Api : Api := {| mergeActionStates := spec_mergeActionStates |}.

(** A URL classifier used in the examples: interstitial links are the ones
    under the [https://dial.to/] prefix. *)
#[export] Instance sample_Utils : Utils :=
  {| isInterstitial := fun url => prefix "https://dial.to/" url |}.

(** The process-wide registry snapshot behind [getExtendedActionState],
    [getExtendedInterstitialState] and [getExtendedWebsiteState]; a refresh
    replaces the snapshot, so every call names the snapshot it reads. *)
Record ActionsRegistry : Type := mkRegistry {
  getExtendedActionState : string -> ExtendedActionState;
  getExtendedInterstitialState : string -> ExtendedActionState;
  getExtendedWebsiteState : string -> ExtendedActionState
}.

(** ** The admission check *)

Section SecurityCheck.
Context `{Shared}.

(** [checkSecurityFromActionState], lines 376-384.  The source reads
    [checkSecurity(a, l.actions) && state.origin ? checkSecurity(o, ..) : true];
    the conditional operator binds weaker than [&&], so the condition of
    the conditional is the whole conjunction.  [js_and a b] is the value
    of [a && b] as far as its truthiness and its payload go: the falsy
    [a], or else [b] (a trust level string is never empty, so a present
    origin is truthy). *)
Definition js_and {A : Type} (a : bool) (b : option A) : option A :=
  if a then b else None.

Definition checkSecurityFromActionState (state : ActionStateWithOrigin)
  (normalizedSecurityLevel : NormalizedSecurityLevel) : bool :=
  match js_and (checkSecurity (state_action state) (normalizedSecurityLevel actions))
               (state_origin state) with
  | Some (origin, originType) =>
      checkSecurity origin (normalizedSecurityLevel originType)
  | None => true
  end.

(** The admission decision in the spec's words (4.2, [evaluate]):
    [admits(actionLevel, policy.actions) AND (originLevel absent OR
    admits(originLevel, policy[originDomain]))]. *)
Definition spec_admission (state : ActionStateWithOrigin)
  (policy : NormalizedSecurityLevel) : bool :=
  checkSecurity (state_action state) (policy actions)
  && match state_origin state with
     | None => true
     | Some (origin, originType) => checkSecurity origin (policy originType)
     end.

End SecurityCheck.

(** ** The action model *)

(** A thrown value other than [null] and [undefined], as far as the catch
    block reads it: the [message] property it has or lacks (an Error
    object has one; a thrown string or number has none). *)
Record JsError : Type := mkError {
  message : option string
}.

(** What a call can throw, or a promise reject with: [null] or
    [undefined], on which reading a property throws in its turn, or any
    other value. *)
Inductive Thrown : Type :=
| ThrownNullish
| ThrownValue (e : JsError).

(** The result of an awaited call. *)
Inductive outcome (A : Type) : Type :=
| Returns (value : A)
| Throws (e : Thrown).
Arguments Returns {A} value.
Arguments Throws {A} e.

(** Modelled from the spec: the result type of [signTransaction] and the
    guard [isSignTransactionError] of [../utils/type-guards] are not among
    the sources; spec 6 gives [SignResult | SignError], the source reads
    [signResult.signature] once the guard has answered no. *)
Inductive SignResult : Type :=
| SignatureResult (signature : string)
| ErrorResult (error : string).

Definition isSignTransactionError (data : SignResult) : bool :=
  match data with
  | ErrorResult _ => true
  | SignatureResult _ => false
  end.

(** What [component.post(account)] resolves to: the source reads
    [tx.transaction] and [tx.message]. *)
Record PostResponse : Type := mkPost {
  transaction : string;
  post_message : option string
}.

Record ActionParameter : Type := mkActionParameter {
  name : string;
  parameter_label : string
}.

Module ActionComponent.
(** Modelled from the spec: the [ActionComponent] class of [../api] is not
    among the sources; spec 3 gives a label, an optional single parameter,
    [post(account)] and identity equality.  [ref] is the identity of the
    object; the value set by [setValue] lives in the world's [values]
    store under that [ref], and [post] reads it. *)
Record t : Type := mk {
  ref : nat;
  label : string;
  parameter : option ActionParameter;
  parent_url : string;
  post : option string -> string -> outcome PostResponse
}.

(** [a === b] *)
Definition same (a b : t) : bool := Nat.eqb (ref a) (ref b).
End ActionComponent.

(** [ActionContext], with the parent action and the triggered component
    named by URL and by reference. *)
Record ActionContext : Type := mkContext {
  context_action : string;
  actionType : ExtendedActionState;
  originalUrl : string;
  triggeredLinkedAction : nat
}.

(** The adapter of spec 6: three calls, each of which may throw. *)
Record ActionAdapter : Type := mkAdapter {
  connect : ActionContext -> outcome (option string);
  signTransaction : string -> ActionContext -> outcome (option SignResult);
  confirmTransaction : string -> ActionContext -> outcome unit
}.

Module Action.
(** The fields of the [Action] class of [../api] that the container reads. *)
Record t : Type := mk {
  url : string;
  disabled : bool;
  error : option string;
  actions : list ActionComponent.t;
  adapter : ActionAdapter
}.
End Action.

(** The props of one mounted ActionContainer (callbacks are observational
    and left out). *)
Record Props : Type := mkProps {
  action : Action.t;
  websiteUrl : option string;
  securityLevel : SecurityLevelProp
}.

(** ** Execution state and reducer *)

Inductive ExecutionStatus : Type :=
| blocked
| idle
| executing
| success
| error.

Record ExecutionState : Type := mkExecution {
  status : ExecutionStatus;
  executingAction : option ActionComponent.t;
  errorMessage : option string;
  successMessage : option string
}.

(** An object literal [{ status: s }]: the other fields are undefined. *)
Definition only_status (s : ExecutionStatus) : ExecutionState :=
  mkExecution s None None None.

Inductive ActionValue : Type :=
| INITIATE (executingAction : ActionComponent.t) (errorMessage : option string)
| FINISH (successMessage : option string)
| FAIL (errorMessage : string)
| RESET
| UNBLOCK
| BLOCK.

Definition executionReducer (state : ExecutionState) (action : ActionValue)
  : ExecutionState :=
  match action with
  | INITIATE executingAction _ =>
      mkExecution executing (Some executingAction) None None
  | FINISH successMessage =>
      mkExecution success (executingAction state) None successMessage
  | FAIL errorMessage =>
      mkExecution error (executingAction state) (Some errorMessage) None
  | RESET => only_status idle
  | BLOCK => only_status blocked
  | UNBLOCK => only_status idle
  end.

Definition status_eqb (a b : ExecutionStatus) : bool :=
  match a, b with
  | blocked, blocked | idle, idle | executing, executing
  | success, success | error, error => true
  | _, _ => false
  end.

Definition buttonLabelMap (s : ExecutionStatus) : option string :=
  match s with
  | blocked => None
  | idle => None
  | executing => Some "Executing"
  | success => Some "Completed"
  | error => Some "Failed"
  end.

Inductive Variant : Type :=
| variant_default
| variant_success
| variant_error.

Definition buttonVariantMap (s : ExecutionStatus) : Variant :=
  match s with
  | blocked => variant_default
  | idle => variant_default
  | executing => variant_default
  | success => variant_success
  | error => variant_error
  end.

(** JavaScript truthiness of a [string | null | undefined]. *)
Definition truthy (s : option string) : bool :=
  match s with
  | Some s => negb (String.eqb s "")
  | None => false
  end.

(** [a ?? b] *)
Definition nullish {A : Type} (a : option A) (b : A) : A :=
  match a with
  | Some x => x
  | None => b
  end.

(** ** The container: derived values and rendering *)

(** The two pieces of React state of one ActionContainer:
    [useState(getOverallActionState(..))] and [useReducer(executionReducer, ..)]. *)
Record Controller : Type := mkController {
  actionState : ActionStateWithOrigin;
  executionState : ExecutionState
}.

Record ButtonProps : Type := mkButton {
  text : string;
  loading : bool;
  button_disabled : bool;
  variant : Variant;
  onClick : ActionComponent.t
}.

Record InputProps : Type := mkInput {
  placeholder : string;
  input_disabled : bool;
  input_name : string;
  button : ButtonProps
}.

(** What the [disclaimer] memo renders: the error snackbar (with the
    provider notice and, possibly, the button that dispatches UNBLOCK), the
    warning snackbar, or nothing. *)
Inductive Disclaimer : Type :=
| ErrorSnackbar (providerBlocks : bool) (proceedButton : bool)
| WarningSnackbar (providerBlocks : bool)
| NoDisclaimer.

(** [arr.toSpliced(start)]: a copy without the elements from [start] on. *)
Definition toSpliced {A : Type} (l : list A) (start : nat) : list A :=
  firstn start l.

Definition has_parameter (it : ActionComponent.t) : bool :=
  match ActionComponent.parameter it with
  | Some _ => true
  | None => false
  end.

(** The second filter of [buttons] and [inputs]:
    [executingAction ? executingAction === it : true]. *)
Definition is_executing_or_free (state : ExecutionState) (it : ActionComponent.t)
  : bool :=
  match executingAction state with
  | Some e => ActionComponent.same e it
  | None => true
  end.

Definition buttons (action : Action.t) (state : ExecutionState)
  : list ActionComponent.t :=
  toSpliced
    (filter (is_executing_or_free state)
       (filter (fun it => negb (has_parameter it)) (Action.actions action)))
    SOFT_LIMIT_BUTTONS.

Definition inputs (action : Action.t) (state : ExecutionState)
  : list ActionComponent.t :=
  toSpliced
    (filter (is_executing_or_free state)
       (filter has_parameter (Action.actions action)))
    SOFT_LIMIT_INPUTS.

Definition asButtonProps (action : Action.t) (state : ExecutionState)
  (it : ActionComponent.t) : ButtonProps :=
  {| text := nullish (buttonLabelMap (status state)) (ActionComponent.label it);
     loading :=
       status_eqb (status state) executing
       && match executingAction state with
          | Some e => ActionComponent.same it e
          | None => false
          end;
     button_disabled :=
       Action.disabled action || negb (status_eqb (status state) idle);
     variant := buttonVariantMap (status state);
     onClick := it |}.

Definition asInputProps (action : Action.t) (state : ExecutionState)
  (it : ActionComponent.t) : InputProps :=
  {| placeholder :=
       match ActionComponent.parameter it with
       | Some p => parameter_label p
       | None => ""
       end;
     input_disabled :=
       Action.disabled action || negb (status_eqb (status state) idle);
     input_name :=
       match ActionComponent.parameter it with
       | Some p => name p
       | None => ""
       end;
     button := asButtonProps action state it |}.

Definition disclaimer (overallState : ExtendedActionState)
  (status : ExecutionStatus) (isPassingSecurityCheck : bool) : Disclaimer :=
  if state_eqb overallState malicious && status_eqb status blocked then
    ErrorSnackbar (negb isPassingSecurityCheck) isPassingSecurityCheck
  else if state_eqb overallState unknown then
    WarningSnackbar (negb isPassingSecurityCheck)
  else NoDisclaimer.

Definition offers_override (d : Disclaimer) : bool :=
  match d with
  | ErrorSnackbar _ proceedButton => proceedButton
  | _ => false
  end.

Section Container.
Context `{Shared} `{Api} `{Utils}.

(** [getOverallActionState], lines 348-374, against a registry snapshot. *)
Definition getOverallActionState (registry : ActionsRegistry)
  (action : Action.t) (websiteUrl : option string) : ActionStateWithOrigin :=
  let actionState := getExtendedActionState registry (Action.url action) in
  let originalUrlData :=
    if truthy websiteUrl then option_map isInterstitial websiteUrl else None in
  match originalUrlData with
  | None => mkActionState actionState None
  | Some true =>
      mkActionState actionState
        (Some (getExtendedInterstitialState registry (nullish websiteUrl ""),
               interstitials))
  | Some false =>
      mkActionState actionState
        (Some (getExtendedWebsiteState registry (nullish websiteUrl ""),
               websites))
  end.

(** [[actionState.action, actionState.origin].filter(Boolean)] merged. *)
Definition overallState (actionState : ActionStateWithOrigin)
  : ExtendedActionState :=
  mergeActionStates
    (state_action actionState
     :: match origin_level actionState with
        | Some origin => [origin]
        | None => []
        end).

Definition isPassingSecurityCheck (props : Props) (c : Controller) : bool :=
  checkSecurityFromActionState (actionState c)
    (normalizedSecurityLevel (securityLevel props)).

(** The initial reducer state, lines 441-446. *)
Definition initial_status (overall : ExtendedActionState)
  (isPassing : bool) : ExecutionStatus :=
  if negb (state_eqb overall malicious) && isPassing then idle else blocked.

(** A freshly mounted container, reading the registry snapshot of the
    moment. *)
Definition mount (props : Props) (registry : ActionsRegistry) : Controller :=
  let actionState := getOverallActionState registry (action props) (websiteUrl props) in
  {| actionState := actionState;
     executionState :=
       only_status
         (initial_status (overallState actionState)
            (checkSecurityFromActionState actionState
               (normalizedSecurityLevel (securityLevel props)))) |}.

Definition rendered_disclaimer (props : Props) (c : Controller) : Disclaimer :=
  disclaimer (overallState (actionState c)) (status (executionState c))
    (isPassingSecurityCheck props c).

(** Clicking "Ignore warning & proceed". *)
Definition override (c : Controller) : Controller :=
  {| actionState := actionState c;
     executionState := executionReducer (executionState c) UNBLOCK |}.

End Container.

(** ** The [execute] handler

    [execute] is an async function with an early [return] and a
    [try]/[catch] around its awaited calls.  It runs in a small monad over
    the [World]: the container's state, the parameter values held by the
    components, and the trace of what the handler did. *)

Inductive Step : Type :=
| Connect
| Post
| SignTransaction
| ConfirmTransaction.

Inductive Effect : Type :=
| SetActionState (newActionState : ActionStateWithOrigin)
| Dispatch (action : ActionValue)
| Await (step : Step).

Record World : Type := mkWorld {
  controller : Controller;
  values : nat -> option string;
  trace : list Effect
}.

(** How a block of statements ends: it falls through with a value, it
    executes [return], or it throws. *)
Inductive completion (A : Type) : Type :=
| Normal (a : A)
| Return
| Throw (e : Thrown).
Arguments Normal {A} a.
Arguments Return {A}.
Arguments Throw {A} e.

Definition M (A : Type) : Type := World -> completion A * World.

Definition ret {A : Type} (a : A) : M A := fun w => (Normal a, w).

Definition bind {A B : Type} (m : M A) (f : A -> M B) : M B :=
  fun w =>
    match m w with
    | (Normal a, w') => f a w'
    | (Return, w') => (Return, w')
    | (Throw e, w') => (Throw e, w')
    end.

Declare Scope exec_scope.
Delimit Scope exec_scope with exec.
Notation "x <- m ;; k" := (bind m (fun x => k))
  (at level 61, m at next level, right associativity) : exec_scope.
Notation "m ;; k" := (bind m (fun _ => k))
  (at level 61, right associativity) : exec_scope.
Local Open Scope exec_scope.

Definition return_ {A : Type} : M A := fun w => (Return, w).

Definition throw {A : Type} (e : Thrown) : M A := fun w => (Throw e, w).

(** [try { body } catch (e) { handler }]: a [return] inside the body leaves
    the function, only a thrown value reaches the handler. *)
Definition try_catch {A : Type} (body : M A) (handler : Thrown -> M A) : M A :=
  fun w =>
    match body w with
    | (Throw e, w') => handler e w'
    | r => r
    end.

Definition log (e : Effect) (w : World) : World :=
  {| controller := controller w; values := values w; trace := trace w ++ [e] |}.

(** [await call]: the step is recorded, its result returned or rethrown. *)
Definition await {A : Type} (step : Step) (call : outcome A) : M A :=
  fun w =>
    (match call with
     | Returns v => Normal v
     | Throws e => Throw e
     end, log (Await step) w).

Definition dispatch (action : ActionValue) : M unit :=
  fun w =>
    (Normal tt,
     log (Dispatch action)
       {| controller :=
            {| actionState := actionState (controller w);
               executionState :=
                 executionReducer (executionState (controller w)) action |};
          values := values w;
          trace := trace w |}).

Definition setActionState (newActionState : ActionStateWithOrigin) : M unit :=
  fun w =>
    (Normal tt,
     log (SetActionState newActionState)
       {| controller :=
            {| actionState := newActionState;
               executionState := executionState (controller w) |};
          values := values w;
          trace := trace w |}).

(** [component.setValue(v)]: the component object is updated in place. *)
Definition setValue (component : ActionComponent.t) (v : option string) : M unit :=
  fun w =>
    (Normal tt,
     {| controller := controller w;
        values := fun r =>
          if Nat.eqb r (ActionComponent.ref component) then v else values w r;
        trace := trace w |}).

Definition get_actionState : M ActionStateWithOrigin :=
  fun w => (Normal (actionState (controller w)), w).

Definition get_value (component : ActionComponent.t) : M (option string) :=
  fun w => (Normal (values w (ActionComponent.ref component)), w).

(** [!signResult || isSignTransactionError(signResult)] *)
Definition sign_declined (signResult : option SignResult) : bool :=
  match signResult with
  | None => true
  | Some data => isSignTransactionError data
  end.

(** [signResult.signature] *)
Definition signature_of (signResult : option SignResult) : string :=
  match signResult with
  | Some (SignatureResult signature) => signature
  | _ => ""
  end.

Definition context_of (props : Props) (actionState : ActionStateWithOrigin)
  (component : ActionComponent.t) : ActionContext :=
  {| context_action := ActionComponent.parent_url component;
     actionType := state_action actionState;
     originalUrl := nullish (websiteUrl props) (ActionComponent.parent_url component);
     triggeredLinkedAction := ActionComponent.ref component |}.

(** Lines 485-487: [if (component.parameter && params) component.setValue(..)]. *)
Definition submit_params (component : ActionComponent.t)
  (params : option (string -> option string)) : M unit :=
  match ActionComponent.parameter component, params with
  | Some parameter, Some params => setValue component (params (name parameter))
  | _, _ => ret tt
  end.

Section Execute.
Context `{Shared} `{Api} `{Utils}.

(** The condition of the [if] at lines 496-500. *)
Definition must_block (props : Props) (actionState newActionState : ActionStateWithOrigin)
  : bool :=
  (negb (state_eqb (state_action newActionState) (state_action actionState))
   || opt_state_neqb (origin_level newActionState) (origin_level actionState))
  && negb (checkSecurityFromActionState newActionState
             (normalizedSecurityLevel (securityLevel props))).

(** [const newActionState = getOverallActionState(action, websiteUrl)],
    read from the registry snapshot of the moment of the call. *)
Definition fresh_state (props : Props) (registry : ActionsRegistry)
  : ActionStateWithOrigin :=
  getOverallActionState registry (action props) (websiteUrl props).

(** Lines 485-506: everything [execute] does before its first awaited
    call, ending with the INITIATE dispatch. *)
Definition execute_guard (props : Props) (registry : ActionsRegistry)
  (component : ActionComponent.t) (params : option (string -> option string))
  : M unit :=
  submit_params component params ;;
  actionState <- get_actionState ;;
  let newActionState := fresh_state props registry in
  (if must_block props actionState newActionState then
     setActionState newActionState ;;
     dispatch BLOCK ;;
     return_
   else ret tt) ;;
  dispatch (INITIATE component None).

(** The catch block, lines 537-542.  Its argument is evaluated first:
    [(e as Error).message] on a thrown [null] or [undefined] is a
    TypeError thrown from inside the block, so nothing is dispatched and
    the promise of [execute] rejects; the cast is a compile-time
    annotation and checks nothing. *)
Definition catch_handler (e : Thrown) : M unit :=
  match e with
  | ThrownNullish =>
      throw (ThrownValue (mkError (Some "Cannot read properties of undefined")))
  | ThrownValue thrown =>
      dispatch (FAIL (nullish (message thrown) "Unknown error"))
  end.

(** Lines 508-542: the awaited protocol steps inside [try]/[catch]. *)
Definition execute_protocol (props : Props) (component : ActionComponent.t)
  : M unit :=
  actionState <- get_actionState ;;
  let context := context_of props actionState component in
  let adapter := Action.adapter (action props) in
  try_catch
    (account <- await Connect (connect adapter context) ;;
     if negb (truthy account) then
       dispatch RESET ;;
       return_
     else
       value <- get_value component ;;
       tx <- await Post (ActionComponent.post component value (nullish account "")) ;;
       signResult <- await SignTransaction
                       (signTransaction adapter (transaction tx) context) ;;
       if sign_declined signResult then
         dispatch RESET
       else
         await ConfirmTransaction
           (confirmTransaction adapter (signature_of signResult) context) ;;
         dispatch (FINISH (post_message tx)))
    catch_handler.

Definition execute (props : Props) (registry : ActionsRegistry)
  (component : ActionComponent.t) (params : option (string -> option string))
  : M unit :=
  execute_guard props registry component params ;;
  execute_protocol props component.

(** A click on a rendered control, with the handler's effects starting
    from an empty trace. *)
Definition start (c : Controller) (values : nat -> option string) : World :=
  {| controller := c; values := values; trace := [] |}.

Definition rendered (props : Props) (c : Controller) : list ActionComponent.t :=
  buttons (action props) (executionState c)
  ++ inputs (action props) (executionState c).

Definition clickable (props : Props) (c : Controller) (it : ActionComponent.t)
  : Prop :=
  In it (rendered props c)
  /\ button_disabled (asButtonProps (action props) (executionState c) it) = false.

(** The states one mounted container can be seen in: the one it mounts
    with, the one after the override, the [executing] state a click
    enters before the first awaited call, and the state the handler ends
    in. *)
Inductive reachable (props : Props) : Controller -> Prop :=
| reach_mount (registry : ActionsRegistry) :
    reachable props (mount props registry)
| reach_override (c : Controller) :
    reachable props c ->
    offers_override (rendered_disclaimer props c) = true ->
    reachable props (override c)
| reach_click (c : Controller) (registry : ActionsRegistry)
    (component : ActionComponent.t) (params : option (string -> option string))
    (values : nat -> option string) :
    reachable props c ->
    clickable props c component ->
    reachable props
      (controller (snd (execute_guard props registry component params (start c values))))
| reach_settled (c : Controller) (registry : ActionsRegistry)
    (component : ActionComponent.t) (params : option (string -> option string))
    (values : nat -> option string) :
    reachable props c ->
    clickable props c component ->
    reachable props
      (controller (snd (execute props registry component params (start c values)))).

End Execute.

(** ** What the awaited calls answer during one run *)

Section Protocol.
Variable props : Props.
Variable w : World.
Variable component : ActionComponent.t.

Let context : ActionContext :=
  context_of props (actionState (controller w)) component.
Let adapter : ActionAdapter := Action.adapter (action props).

Definition connect_result : outcome (option string) :=
  connect adapter context.

Definition post_result (account : option string) : outcome PostResponse :=
  ActionComponent.post component
    (values w (ActionComponent.ref component)) (nullish account "").

Definition sign_result (tx : PostResponse) : outcome (option SignResult) :=
  signTransaction adapter (transaction tx) context.

Definition confirm_result (signResult : option SignResult) : outcome unit :=
  confirmTransaction adapter (signature_of signResult) context.

(** The user declines: [connect] resolves to no account ([null], or the
    empty string, the other falsy account), or [connect] and [post] return
    and signing returns, without throwing, nothing or an error result. *)
Inductive declines : Prop :=
| connect_returns_no_account :
    connect_result = Returns None ->
    declines
| connect_returns_empty_account :
    connect_result = Returns (Some "") ->
    declines
| sign_returns_nothing (account : string) (tx : PostResponse) :
    connect_result = Returns (Some account) ->
    account <> "" ->
    post_result (Some account) = Returns tx ->
    sign_result tx = Returns None ->
    declines
| sign_returns_error (account : string) (tx : PostResponse) (reason : string) :
    connect_result = Returns (Some account) ->
    account <> "" ->
    post_result (Some account) = Returns tx ->
    sign_result tx = Returns (Some (ErrorResult reason)) ->
    declines.

(** One of the four steps throws [thrown]; the steps before it returned
    what lets the handler go on. *)
Inductive throws (thrown : Thrown) : Prop :=
| connect_throws :
    connect_result = Throws thrown ->
    throws thrown
| post_throws (account : string) :
    connect_result = Returns (Some account) ->
    account <> "" ->
    post_result (Some account) = Throws thrown ->
    throws thrown
| sign_throws (account : string) (tx : PostResponse) :
    connect_result = Returns (Some account) ->
    account <> "" ->
    post_result (Some account) = Returns tx ->
    sign_result tx = Throws thrown ->
    throws thrown
| confirm_throws (account : string) (tx : PostResponse) (signature : string) :
    connect_result = Returns (Some account) ->
    account <> "" ->
    post_result (Some account) = Returns tx ->
    sign_result tx = Returns (Some (SignatureResult signature)) ->
    confirm_result (Some (SignatureResult signature)) = Throws thrown ->
    throws thrown.

(** All four steps succeed, [post] having produced [tx]. *)
Inductive completes (tx : PostResponse) : Prop :=
| all_steps_succeed (account : option string) (signature : string) :
    connect_result = Returns account ->
    truthy account = true ->
    post_result account = Returns tx ->
    sign_result tx = Returns (Some (SignatureResult signature)) ->
    confirm_result (Some (SignatureResult signature)) = Returns tt ->
    completes tx.

End Protocol.

(** ** Sample data for the worked examples *)

Definition registry_of (actionLevel interstitialLevel websiteLevel : ExtendedActionState)
  : ActionsRegistry :=
  {| getExtendedActionState := fun _ => actionLevel;
     getExtendedInterstitialState := fun _ => interstitialLevel;
     getExtendedWebsiteState := fun _ => websiteLevel |}.

Definition adapter_of (connected : outcome (option string))
  (signed : outcome (option SignResult)) (confirmed : outcome unit) : ActionAdapter :=
  {| connect := fun _ => connected;
     signTransaction := fun _ _ => signed;
     confirmTransaction := fun _ _ => confirmed |}.

Definition wallet : outcome (option string) := Returns (Some "7xKXtg2CW87d").

Definition happy_adapter : ActionAdapter :=
  adapter_of wallet (Returns (Some (SignatureResult "5VERv8NMvzbJ"))) (Returns tt).

Definition swap_button : ActionComponent.t :=
  {| ActionComponent.ref := 1;
     ActionComponent.label := "Swap";
     ActionComponent.parameter := None;
     ActionComponent.parent_url := "https://example.org/api/swap";
     ActionComponent.post := fun _ _ => Returns (mkPost "AQAB" (Some "Swap complete")) |}.

Definition stake_button : ActionComponent.t :=
  {| ActionComponent.ref := 2;
     ActionComponent.label := "Stake";
     ActionComponent.parameter := None;
     ActionComponent.parent_url := "https://example.org/api/swap";
     ActionComponent.post := fun _ _ => Returns (mkPost "AQAC" None) |}.

Definition amount_input : ActionComponent.t :=
  {| ActionComponent.ref := 3;
     ActionComponent.label := "Buy";
     ActionComponent.parameter := Some (mkActionParameter "amount" "Amount");
     ActionComponent.parent_url := "https://example.org/api/swap";
     ActionComponent.post := fun _ _ => Throws (ThrownValue (mkError (Some "no route"))) |}.

Definition sample_action (adapter : ActionAdapter) : Action.t :=
  {| Action.url := "https://example.org/api/swap";
     Action.disabled := false;
     Action.error := None;
     Action.actions := [swap_button; stake_button; amount_input];
     Action.adapter := adapter |}.

(** A direct action reference (no enclosing origin) under one uniform
    security level. *)
Definition direct_props (adapter : ActionAdapter) (level : SecurityLevel) : Props :=
  {| action := sample_action adapter;
     websiteUrl := None;
     securityLevel := Uniform level |}.

(** The same action unfurled from a website link. *)
Definition website_props (adapter : ActionAdapter) (level : SecurityLevel) : Props :=
  {| action := sample_action adapter;
     websiteUrl := Some "https://example.org/swap";
     securityLevel := Uniform level |}.

Definition no_values : nat -> option string := fun _ => None.

Definition all_trusted : ActionsRegistry := registry_of trusted trusted trusted.

(** A registry snapshot that flags the action itself. *)
Definition flagged_action : ActionsRegistry := registry_of malicious trusted trusted.

Definition strict_direct : Props := direct_props happy_adapter only_trusted.

(** The container right after a click on "Stake": the guard has run and
    INITIATE has been dispatched. *)
Definition staking : Controller :=
  controller
    (snd (execute_guard strict_direct all_trusted stake_button None
            (start (mount strict_direct all_trusted) no_values))).

(** An action with twelve buttons and four inputs, more than the caps. *)
Definition numbered (parameter : option ActionParameter) (n : nat)
  : ActionComponent.t :=
  {| ActionComponent.ref := n;
     ActionComponent.label := "Option";
     ActionComponent.parameter := parameter;
     ActionComponent.parent_url := "https://example.org/api/poll";
     ActionComponent.post := fun _ _ => Returns (mkPost "AQAD" None) |}.

Definition crowded_action : Action.t :=
  {| Action.url := "https://example.org/api/poll";
     Action.disabled := false;
     Action.error := None;
     Action.actions :=
       map (numbered None) (seq 0 12)
       ++ map (numbered (Some (mkActionParameter "choice" "Your choice"))) (seq 12 4);
     Action.adapter := happy_adapter |}.

(** ** The layout: what one render shows *)

(** What [ActionButton] puts inside the button: the text with the spinner
    while loading, the text with the check mark for the success variant,
    the bare text otherwise. *)
Inductive ButtonContent : Type :=
| SpinnerContent (text : string)
| CheckContent (text : string)
| TextContent (text : string).

Definition ActionButton (b : ButtonProps) : ButtonContent :=
  if loading b then SpinnerContent (text b)
  else match variant b with
       | variant_success => CheckContent (text b)
       | _ => TextContent (text b)
       end.

(** [ActionInput], lines 168-189, with [value] the text typed so far: the
    props it hands to its inner [ActionButton], and the argument its click
    passes to [button.onClick], the object [{ [name]: value }]. *)
Definition ActionInput_button (input : InputProps) (value : string) : ButtonProps :=
  {| text := text (button input);
     loading := loading (button input);
     button_disabled := button_disabled (button input) || String.eqb value "";
     variant := variant (button input);
     onClick := onClick (button input) |}.

Definition ActionInput_params (input : InputProps) (value : string)
  : option (string -> option string) :=
  Some (fun key => if String.eqb key (input_name input) then Some value else None).

(** The [error] and [success] props the container passes to the layout,
    lines 634-639. *)
Definition error_prop (action : Action.t) (state : ExecutionState) : option string :=
  if negb (status_eqb (status state) success) then
    match errorMessage state with
    | Some thrown => Some thrown
    | None => Action.error action
    end
  else None.

Definition success_prop (state : ExecutionState) : option string :=
  successMessage state.

(** The two message lines at the bottom of [ActionLayout], lines 153-162:
    [success && ..] and [error && !success && ..]. *)
Record MessageLines : Type := mkLines {
  success_line : option string;
  error_line : option string
}.

Definition ActionLayout_messages (error success : option string) : MessageLines :=
  {| success_line := if truthy success then success else None;
     error_line := if truthy error && negb (truthy success) then error else None |}.

Inductive Badge : Type :=
| BlockedBadge
| TrustedBadge
| WarningBadge.

(** The badge next to the link, lines 112-131. *)
Definition ActionLayout_badge (type : ExtendedActionState) : Badge :=
  match type with
  | malicious => BlockedBadge
  | trusted => TrustedBadge
  | unknown => WarningBadge
  end.

(** The awaited steps of a trace, in order. *)
Fixpoint awaited (t : list Effect) : list Step :=
  match t with
  | [] => []
  | Await step :: t' => step :: awaited t'
  | _ :: t' => awaited t'
  end.

Fixpoint dispatched (t : list Effect) : list ActionValue :=
  match t with
  | [] => []
  | Dispatch action :: t' => action :: dispatched t'
  | _ :: t' => dispatched t'
  end.

Definition protocol_order : list Step :=
  [Connect; Post; SignTransaction; ConfirmTransaction].

(** ** The observer ([ext/twitter.tsx], the second source file) *)

Definition DEFAULT_OPTIONS : SecurityLevelProp := Uniform only_trusted.

(** [normalizeOptions], lines 38-64, reduced to the [securityLevel] key it
    computes; [None] is an [options] object without that key. *)
Definition normalizeOptions (securityLevel : option SecurityLevelProp)
  : NormalizedSecurityLevel :=
  match securityLevel with
  | None =>
      match DEFAULT_OPTIONS with
      | Uniform level => fun _ => level
      | PerSource levels => levels
      end
  | Some (Uniform level) => fun _ => level
  | Some (PerSource levels) => levels
  end.

(** A DOM element as the observer reads it: its tag, its [data-testid]
    attribute, its [href] and its child elements. *)
#[warnings="-register-all"]
Inductive Element : Type :=
| El (localName : string) (testid : option string) (href : option string)
     (children : list Element).

Definition localName_of (e : Element) : string :=
  match e with El localName _ _ _ => localName end.

Definition testid_of (e : Element) : option string :=
  match e with El _ testid _ _ => testid end.

Definition href_of (e : Element) : option string :=
  match e with El _ _ href _ => href end.

Definition children_of (e : Element) : list Element :=
  match e with El _ _ _ children => children end.

(** [x] is [e] or one of its descendants. *)
Inductive within (x : Element) : Element -> Prop :=
| within_self : within x x
| within_child (e child : Element) :
    In child (children_of e) -> within x child -> within x e.

(** An added node: an element, or a node of another type (text, comment). *)
Inductive Node : Type :=
| ElementNode (element : Element)
| OtherNode.

(** [element.attributes.getNamedItem('data-testid')?.value === testId] *)
Definition has_testid (testId : string) (e : Element) : bool :=
  match testid_of e with
  | Some value => String.eqb value testId
  | None => false
  end.

Fixpoint first_some {A B : Type} (f : A -> option B) (l : list A) : option B :=
  match l with
  | [] => None
  | x :: l' =>
      match f x with
      | Some r => Some r
      | None => first_some f l'
      end
  end.

(** The first element carrying the test id among [e] and its descendants,
    in document order. *)
Fixpoint first_match (testId : string) (e : Element) : option Element :=
  match e with
  | El _ _ _ children =>
      if has_testid testId e then Some e
      else first_some (first_match testId) children
  end.

(** Whether CSS reads the characters of [testId], pasted between double
    quotes into a selector, back as themselves: no double quote (it would
    end the string), no backslash (it would start an escape), no line
    feed, form feed or carriage return (they would break the string), no
    NUL (it would be replaced). *)
Definition css_plain_char (c : Ascii.ascii) : bool :=
  negb (existsb (Nat.eqb (Ascii.nat_of_ascii c)) [0; 10; 12; 13; 34; 92]).

Fixpoint css_plain (testId : string) : bool :=
  match testId with
  | EmptyString => true
  | String c rest => css_plain_char c && css_plain rest
  end.

(** What the browser's selector engine does with a selector text: it
    answers with an element or with none, or it throws a SyntaxError. *)
Definition SelectorEngine : Type := string -> Element -> outcome (option Element).

(** [element.querySelector(..)] on the text made of [[data-testid=], a
    double quote, [testId], a double quote and a closing bracket.  For a
    plain [testId] that text selects on the attribute being equal to
    [testId], and the answer is the first such descendant in document
    order.  For any other id the text means another selector, or none, and
    the answer is the engine's. *)
Definition querySelector (engine : SelectorEngine) (element : Element)
  (testId : string) : outcome (option Element) :=
  if css_plain testId
  then Returns (first_some (first_match testId) (children_of element))
  else engine testId element.

(** [findElementByTestId], lines 226-231. *)
Definition findElementByTestId (engine : SelectorEngine) (element : Element)
  (testId : string) : outcome (option Element) :=
  if has_testid testId element then Returns (Some element)
  else querySelector engine element testId.

(** The loops of the MutationObserver callback, lines 83-100: the elements
    handed to [handleNewNode], in order.  A node that is not an element
    makes the callback [return]; the flag tells that it did. *)
Fixpoint scan_added (addedNodes : list Node) : list Element * bool :=
  match addedNodes with
  | [] => ([], false)
  | OtherNode :: _ => ([], true)
  | ElementNode element :: rest =>
      let (handled, returned) := scan_added rest in
      (element :: handled, returned)
  end.

Fixpoint observer_callback (mutations : list (list Node)) : list Element :=
  match mutations with
  | [] => []
  | addedNodes :: rest =>
      let (handled, returned) := scan_added addedNodes in
      if returned then handled else handled ++ observer_callback rest
  end.

(** A parsed [URL]. *)
Record URL : Type := mkURL {
  url_href : string;
  url_origin : string;
  url_hostname : string
}.

(** What the browser, the network and the helpers outside the sources
    answer to [handleNewNode]: the selector engine, the expansion of the
    shortened link, the action URL an interstitial link decodes to, the
    lookup through the site's [actions.json] (a fetch that may throw, then
    [mapUrl]), and [Action.fetch(..).catch(() => null)]. *)
Record Network : Type := mkNetwork {
  selectorEngine : SelectorEngine;
  resolveTwitterShortenedUrl : option string -> outcome URL;
  decodedActionUrl : string -> option string;
  mapUrl : URL -> outcome (option string);
  fetchAction : string -> ActionAdapter -> option Action.t
}.

(** What [handleNewNode] did: nothing, or it replaced the children of the
    card's parent by a container rendered with these props. *)
Inductive Handled : Type :=
| Skipped
| Mounted (rootElement : Element) (props : Props) (websiteText : string).

Section Observer.
Context `{Shared} `{Utils}.

(** [handleNewNode], lines 106-185, with [createAction], lines 187-215.
    [registry] is the snapshot read for the origin, [refreshed] the one
    read after the awaited [actions.json] fetch.  A thrown value rejects
    the promise, which the caller swallows with [.catch(noop)]. *)
Definition handleNewNode (network : Network) (registry refreshed : ActionsRegistry)
  (element : Element) (config : ActionAdapter) (options : NormalizedSecurityLevel)
  : outcome Handled :=
  if negb (String.eqb (localName_of element) "div") then Returns Skipped else
  match findElementByTestId (selectorEngine network) element "card.wrapper" with
  | Throws e => Throws e
  | Returns None => Returns Skipped
  | Returns (Some rootElement) =>
      match children_of rootElement with
      | [] => Returns Skipped
      | linkPreview :: _ =>
          match children_of linkPreview with
          | [] => Throws (ThrownValue (mkError (Some "Cannot read properties of undefined")))
          | anchor :: _ =>
              match resolveTwitterShortenedUrl network (href_of anchor) with
              | Throws e => Throws e
              | Returns actionUrl =>
                  let mount_action (state_registry : ActionsRegistry)
                        (actionApiUrl : option string) : Handled :=
                    if negb (truthy actionApiUrl) then Skipped
                    else if negb (checkSecurity
                                    (getExtendedActionState state_registry
                                       (nullish actionApiUrl ""))
                                    (options actions)) then Skipped
                    else match fetchAction network (nullish actionApiUrl "") config with
                         | None => Skipped
                         | Some action =>
                             Mounted rootElement
                               {| action := action;
                                  websiteUrl := Some (url_href actionUrl);
                                  securityLevel := PerSource options |}
                               (url_hostname actionUrl)
                         end in
                  if isInterstitial (url_href actionUrl) then
                    if negb (checkSecurity
                               (getExtendedInterstitialState registry (url_href actionUrl))
                               (options interstitials))
                    then Returns Skipped
                    else Returns (mount_action registry
                                    (decodedActionUrl network (url_href actionUrl)))
                  else
                    if negb (checkSecurity
                               (getExtendedWebsiteState registry (url_href actionUrl))
                               (options websites))
                    then Returns Skipped
                    else match mapUrl network actionUrl with
                         | Throws e => Throws e
                         | Returns actionApiUrl =>
                             Returns (mount_action refreshed actionApiUrl)
                         end
              end
          end
      end
  end.

End Observer.

(** Sample data for the observer. *)
Definition tweet_card (shortened : string) : Element :=
  El "div" None None
    [El "div" (Some "card.wrapper") None
       [El "div" None None [El "a" None (Some shortened) []]]].

Definition swap_site : URL :=
  mkURL "https://example.org/swap" "https://example.org" "example.org".

Definition sample_network : Network :=
  {| selectorEngine :=
       fun _ _ => Throws (ThrownValue (mkError (Some "SyntaxError")));
     resolveTwitterShortenedUrl := fun _ => Returns swap_site;
     decodedActionUrl := fun _ => None;
     mapUrl := fun _ => Returns (Some "https://example.org/api/swap");
     fetchAction := fun requested adapter =>
       if String.eqb requested "https://example.org/api/swap"
       then Some (sample_action adapter) else None |}.

(** The props of the container the observer mounts for that card when no
    security level was configured. *)
Definition observed_props : Props :=
  {| action := sample_action happy_adapter;
     websiteUrl := Some "https://example.org/swap";
     securityLevel := PerSource (normalizeOptions None) |}.

(** * Properties *)

Lemma state_eqb_eq (a b : ExtendedActionState) : state_eqb a b = true <-> a = b.
Proof. destruct a, b; simpl; split; congruence. Qed.

Lemma state_eqb_neq (a b : ExtendedActionState) : state_eqb a b = false <-> a <> b.
Proof. destruct a, b; simpl; split; congruence. Qed.

Lemma opt_state_neqb_neq (a b : option ExtendedActionState) :
  opt_state_neqb a b = true <-> a <> b.
Proof.
  destruct a as [[]|], b as [[]|]; simpl; split; congruence.
Qed.

Lemma status_eqb_eq (a b : ExecutionStatus) : status_eqb a b = true <-> a = b.
Proof. destruct a, b; simpl; split; congruence. Qed.

(** ** The admission check *)

Section SecurityCheckFacts.
Context `{Shared}.

(** With no origin the check never looks at the action level. *)
Lemma check_without_origin (actionLevel : ExtendedActionState)
  (policy : NormalizedSecurityLevel) :
  checkSecurityFromActionState (mkActionState actionLevel None) policy = true.
Proof.
  unfold checkSecurityFromActionState, js_and; simpl.
  destruct (checkSecurity actionLevel (policy actions)); reflexivity.
Qed.

(** A failing action-level check makes the condition falsy, which selects
    the [true] branch. *)
Lemma check_when_action_fails (state : ActionStateWithOrigin)
  (policy : NormalizedSecurityLevel) :
  checkSecurity (state_action state) (policy actions) = false ->
  checkSecurityFromActionState state policy = true.
Proof.
  intros Hfail. unfold checkSecurityFromActionState, js_and.
  rewrite Hfail. reflexivity.
Qed.

Lemma check_false_iff (state : ActionStateWithOrigin)
  (policy : NormalizedSecurityLevel) :
  checkSecurityFromActionState state policy = false <->
  checkSecurity (state_action state) (policy actions) = true
  /\ exists origin originType,
       state_origin state = Some (origin, originType)
       /\ checkSecurity origin (policy originType) = false.
Proof.
  unfold checkSecurityFromActionState, js_and.
  destruct (checkSecurity (state_action state) (policy actions)) eqn:Haction.
  - destruct (state_origin state) as [[origin originType]|] eqn:Horigin.
    + split.
      * intros Hcheck. split; [reflexivity|]. now exists origin, originType.
      * intros [_ (o & t & Heq & Hcheck)]. now inversion Heq; subst.
    + split; [discriminate|].
      intros [_ (o & t & Heq & _)]. discriminate.
  - split; [discriminate|]. intros [Habs _]. discriminate.
Qed.

(** Where the action-level check passes, the code computes the spec's
    admission decision. *)
Lemma check_agrees_when_action_passes (state : ActionStateWithOrigin)
  (policy : NormalizedSecurityLevel) :
  checkSecurity (state_action state) (policy actions) = true ->
  checkSecurityFromActionState state policy = spec_admission state policy.
Proof.
  intros Hpass. unfold checkSecurityFromActionState, spec_admission, js_and.
  rewrite Hpass. simpl.
  destruct (state_origin state) as [[origin originType]|]; reflexivity.
Qed.

(** The two differ exactly where the action-level check fails. *)
Lemma check_differs_iff (state : ActionStateWithOrigin)
  (policy : NormalizedSecurityLevel) :
  checkSecurityFromActionState state policy <> spec_admission state policy <->
  checkSecurity (state_action state) (policy actions) = false.
Proof.
  split.
  - intros Hdiff.
    destruct (checkSecurity (state_action state) (policy actions)) eqn:Haction;
      [|reflexivity].
    exfalso. apply Hdiff. now apply check_agrees_when_action_passes.
  - intros Hfail. rewrite (check_when_action_fails _ _ Hfail).
    unfold spec_admission. rewrite Hfail. simpl. discriminate.
Qed.

End SecurityCheckFacts.

(** C1.  The admission check evaluated where the action-level check fails:
    a [malicious] action referenced directly (no origin) under the
    ['only-trusted'] policy.  The policy does not admit the level and the
    spec's admission formula is false, yet [checkSecurityFromActionState]
    answers [true]; the same holds for any state whose action-level check
    fails, whatever the origin. *)
Theorem C1_check_passes_rejected_action :
  checkSecurity malicious (normalizedSecurityLevel (Uniform only_trusted) actions) = false
  /\ spec_admission (mkActionState malicious None)
       (normalizedSecurityLevel (Uniform only_trusted)) = false
  /\ checkSecurityFromActionState (mkActionState malicious None)
       (normalizedSecurityLevel (Uniform only_trusted)) = true
  /\ checkSecurityFromActionState (mkActionState malicious (Some (malicious, websites)))
       (normalizedSecurityLevel (Uniform only_trusted)) = true.
Proof. repeat split. Qed.

(** C10.  [checkSecurityFromActionState] returns [false] only when the
    action-level check passes, an origin is present and the origin-level
    check fails; so it returns [true] for every state with no origin,
    whatever the action's level, and for every state whose action-level
    check fails; a [malicious] action under ['only-trusted'] with no origin
    is reported as passing. *)
Theorem C10_check_fails_only_on_origin :
  forall (shared : Shared) (state : ActionStateWithOrigin)
         (policy : NormalizedSecurityLevel),
    (checkSecurityFromActionState state policy = false <->
     checkSecurity (state_action state) (policy actions) = true
     /\ exists origin originType,
          state_origin state = Some (origin, originType)
          /\ checkSecurity origin (policy originType) = false)
    /\ (state_origin state = None ->
        checkSecurityFromActionState state policy = true)
    /\ (checkSecurity (state_action state) (policy actions) = false ->
        checkSecurityFromActionState state policy = true)
    /\ @checkSecurityFromActionState spec_Shared (mkActionState malicious None)
         (normalizedSecurityLevel (Uniform only_trusted)) = true.
Proof.
  intros shared state policy. split; [apply check_false_iff|].
  split; [|split; [apply check_when_action_fails|reflexivity]].
  destruct state as [actionLevel origin]; simpl. intros ->.
  apply check_without_origin.
Qed.

(** C10 at a state whose action-level check fails while an origin is
    present and trusted. *)
Lemma C10_witness :
  @checkSecurity spec_Shared unknown
    (normalizedSecurityLevel (Uniform only_trusted) actions) = false
  /\ @checkSecurityFromActionState spec_Shared
       (mkActionState unknown (Some (trusted, websites)))
       (normalizedSecurityLevel (Uniform only_trusted)) = true.
Proof.
  split; [reflexivity|].
  destruct (C10_check_fails_only_on_origin spec_Shared
              (mkActionState unknown (Some (trusted, websites)))
              (normalizedSecurityLevel (Uniform only_trusted)))
    as (_ & _ & Hfails & _).
  apply Hfails. reflexivity.
Defined.

(** ** The handler, step by step *)

Section ExecuteFacts.
Context `{Shared} `{Api} `{Utils}.
Variable props : Props.

(** Submitting the parameter value touches neither the container state
    nor the trace. *)
Lemma submit_params_frame (component : ActionComponent.t)
  (params : option (string -> option string)) (w : World) :
  exists values',
    submit_params component params w
    = (Normal tt, {| controller := controller w; values := values'; trace := trace w |}).
Proof.
  unfold submit_params, setValue, ret.
  destruct (ActionComponent.parameter component), params, w; simpl; eauto.
Qed.

Lemma must_block_true_iff (actionState newActionState : ActionStateWithOrigin) :
  must_block props actionState newActionState = true <->
  (state_action newActionState <> state_action actionState
   \/ origin_level newActionState <> origin_level actionState)
  /\ checkSecurityFromActionState newActionState
       (normalizedSecurityLevel (securityLevel props)) = false.
Proof.
  unfold must_block.
  rewrite andb_true_iff, orb_true_iff, !negb_true_iff,
    state_eqb_neq, opt_state_neqb_neq.
  reflexivity.
Qed.


(** The guard blocks: the fresh classification is stored, BLOCK is
    dispatched and the handler returns. *)
Lemma execute_guard_blocks (registry : ActionsRegistry) (c : Controller)
  (values : nat -> option string) (component : ActionComponent.t)
  (params : option (string -> option string)) :
  must_block props (actionState c) (fresh_state props registry) = true ->
  exists values',
    execute_guard props registry component params (start c values)
    = (Return,
       {| controller :=
            {| actionState := fresh_state props registry;
               executionState := only_status blocked |};
          values := values';
          trace := [SetActionState (fresh_state props registry); Dispatch BLOCK] |}).
Proof.
  intros Hblock.
  destruct (submit_params_frame component params (start c values)) as [values' Hsubmit].
  exists values'.
  unfold execute_guard, bind. rewrite Hsubmit. simpl.
  rewrite Hblock. reflexivity.
Qed.

(** The guard lets the click through: the only effect is the INITIATE
    dispatch, and the stored classification is kept. *)
Lemma execute_guard_passes (registry : ActionsRegistry) (c : Controller)
  (values : nat -> option string) (component : ActionComponent.t)
  (params : option (string -> option string)) :
  must_block props (actionState c) (fresh_state props registry) = false ->
  exists values',
    execute_guard props registry component params (start c values)
    = (Normal tt,
       {| controller :=
            {| actionState := actionState c;
               executionState := mkExecution executing (Some component) None None |};
          values := values';
          trace := [Dispatch (INITIATE component None)] |}).
Proof.
  intros Hpass.
  destruct (submit_params_frame component params (start c values)) as [values' Hsubmit].
  exists values'.
  unfold execute_guard, bind. rewrite Hsubmit. simpl.
  rewrite Hpass. reflexivity.
Qed.

(** After a blocking guard the protocol part is skipped. *)
Lemma execute_after_return (registry : ActionsRegistry)
  (component : ActionComponent.t) (params : option (string -> option string))
  (w w' : World) :
  execute_guard props registry component params w = (Return, w') ->
  execute props registry component params w = (Return, w').
Proof. intros Hguard. unfold execute, bind. now rewrite Hguard. Qed.

Lemma execute_after_initiate (registry : ActionsRegistry)
  (component : ActionComponent.t) (params : option (string -> option string))
  (w w' : World) :
  execute_guard props registry component params w = (Normal tt, w') ->
  execute props registry component params w = execute_protocol props component w'.
Proof. intros Hguard. unfold execute, bind. now rewrite Hguard. Qed.

End ExecuteFacts.

Section ProtocolFacts.
Variable props : Props.
Variable component : ActionComponent.t.

Ltac run_protocol :=
  unfold execute_protocol, try_catch, catch_handler, bind, await, throw,
    get_actionState, get_value, dispatch, return_, log; simpl.

Ltac answer Hcall :=
  unfold connect_result, post_result, sign_result, confirm_result in Hcall;
  simpl in Hcall; rewrite Hcall; simpl.

Lemma truthy_account (account : string) :
  account <> "" -> truthy (Some account) = true.
Proof. intros Hne. simpl. apply String.eqb_neq in Hne. now rewrite Hne. Qed.

Lemma truthy_account_inv (account : option string) :
  truthy account = true -> exists a, account = Some a /\ a <> "".
Proof.
  destruct account as [a|]; simpl; [|discriminate].
  intros Ht. exists a. split; [reflexivity|].
  apply String.eqb_neq. now destruct (String.eqb a "").
Qed.

Lemma falsy_account_inv (account : option string) :
  truthy account = false -> account = None \/ account = Some "".
Proof.
  destruct account as [a|]; simpl; [|now left].
  intros Hf. right. f_equal. apply String.eqb_eq. now destruct (String.eqb a "").
Qed.

(** A declined connect or sign ends in RESET. *)
Lemma protocol_declines (w : World) :
  declines props w component ->
  controller (snd (execute_protocol props component w))
  = {| actionState := actionState (controller w);
       executionState := only_status idle |}.
Proof.
  intros [Hconnect
         | Hconnect
         | account tx Hconnect Hne Hpost Hsign
         | account tx reason Hconnect Hne Hpost Hsign];
    run_protocol; answer Hconnect; try reflexivity;
    apply String.eqb_neq in Hne; rewrite Hne; simpl;
    answer Hpost; answer Hsign; reflexivity.
Qed.

(** A step that throws anything but [null] and [undefined] ends in FAIL
    with the thrown message or the fallback. *)
Lemma protocol_throws (w : World) (e : JsError) :
  throws props w component (ThrownValue e) ->
  controller (snd (execute_protocol props component w))
  = {| actionState := actionState (controller w);
       executionState :=
         mkExecution error (executingAction (executionState (controller w)))
           (Some (nullish (message e) "Unknown error")) None |}.
Proof.
  intros [Hconnect
         | account Hconnect Hne Hpost
         | account tx Hconnect Hne Hpost Hsign
         | account tx signature Hconnect Hne Hpost Hsign Hconfirm];
    run_protocol; answer Hconnect; try reflexivity;
    apply String.eqb_neq in Hne; rewrite Hne; simpl;
    answer Hpost; try reflexivity; answer Hsign; try reflexivity.
  answer Hconfirm. reflexivity.
Qed.

(** A step that throws [null] or [undefined] makes the catch block throw:
    the handler ends by rejecting and the container is left as it was. *)
Lemma protocol_rejects (w : World) :
  throws props w component ThrownNullish ->
  (exists e, fst (execute_protocol props component w) = Throw e)
  /\ controller (snd (execute_protocol props component w)) = controller w
  /\ dispatched (trace (snd (execute_protocol props component w)))
     = dispatched (trace w).
Proof.
  assert (Hlog : forall t steps,
             dispatched (t ++ map Await steps) = dispatched t).
  { intros t steps. induction t as [|[s | a | step] t IH]; simpl; try now rewrite IH.
    induction steps as [|step steps IH]; simpl; auto. }
  destruct w as [[stored state] vals t].
  intros [Hconnect
         | account Hconnect Hne Hpost
         | account tx Hconnect Hne Hpost Hsign
         | account tx signature Hconnect Hne Hpost Hsign Hconfirm];
    run_protocol; answer Hconnect;
    try (apply String.eqb_neq in Hne; rewrite Hne; simpl; answer Hpost);
    try (answer Hsign); try (answer Hconfirm);
    (split; [eexists; reflexivity|]); (split; [reflexivity|]).
  - apply (Hlog t [Connect]).
  - rewrite <- app_assoc. apply (Hlog t [Connect; Post]).
  - rewrite <- !app_assoc. apply (Hlog t [Connect; Post; SignTransaction]).
  - rewrite <- !app_assoc.
    apply (Hlog t [Connect; Post; SignTransaction; ConfirmTransaction]).
Qed.

(** Four successful steps end in FINISH with the message of the posted
    transaction. *)
Lemma protocol_completes (w : World) (tx : PostResponse) :
  completes props w component tx ->
  controller (snd (execute_protocol props component w))
  = {| actionState := actionState (controller w);
       executionState :=
         mkExecution success (executingAction (executionState (controller w)))
           None (post_message tx) |}.
Proof.
  intros [account signature Hconnect Htruthy Hpost Hsign Hconfirm].
  run_protocol. answer Hconnect. rewrite Htruthy. simpl.
  answer Hpost. answer Hsign. answer Hconfirm. reflexivity.
Qed.

(** Whatever the collaborators answer, one of the three scenarios
    applies. *)
Lemma protocol_scenarios (w : World) :
  declines props w component
  \/ (exists thrown, throws props w component thrown)
  \/ (exists tx, completes props w component tx).
Proof.
  destruct (connect_result props w component) as [account|e] eqn:Hconnect;
    [|right; left; exists e; now apply connect_throws].
  destruct (truthy account) eqn:Htruthy.
  2:{ left. destruct (falsy_account_inv account Htruthy) as [-> | ->];
        [now apply connect_returns_no_account
        | now apply connect_returns_empty_account]. }
  destruct (truthy_account_inv account Htruthy) as (a & -> & Hne).
  destruct (post_result w component (Some a)) as [tx|e] eqn:Hpost;
    [|right; left; exists e; now apply post_throws with a].
  destruct (sign_result props w component tx) as [signResult|e] eqn:Hsign;
    [|right; left; exists e; now apply sign_throws with a tx].
  destruct signResult as [[signature|reason]|];
    [| left; now apply sign_returns_error with a tx reason
     | left; now apply sign_returns_nothing with a tx].
  destruct (confirm_result props w component (Some (SignatureResult signature)))
    as [[]|e] eqn:Hconfirm;
    [|right; left; exists e; now apply confirm_throws with a tx signature].
  right; right; exists tx.
  now apply all_steps_succeed with (Some a) signature.
Qed.

(** The protocol part never touches the stored classification, and it
    leaves the execution state in one of four shapes: reset, failed,
    finished, or, when the catch block itself threw, as it was. *)
Lemma protocol_settles (w : World) :
  let c' := controller (snd (execute_protocol props component w)) in
  actionState c' = actionState (controller w)
  /\ (executionState c' = only_status idle
      \/ (exists msg,
            executionState c'
            = mkExecution error (executingAction (executionState (controller w)))
                (Some msg) None)
      \/ (exists msg,
            executionState c'
            = mkExecution success (executingAction (executionState (controller w)))
                None msg)
      \/ executionState c' = executionState (controller w)).
Proof.
  destruct (protocol_scenarios w) as [Hd | [[[|e] Ht] | [tx Hc]]]; simpl.
  - rewrite (protocol_declines w Hd). simpl. auto.
  - destruct (protocol_rejects w Ht) as (_ & -> & _). auto 6.
  - rewrite (protocol_throws w e Ht). simpl. eauto.
  - rewrite (protocol_completes w tx Hc). simpl. eauto 6.
Qed.

End ProtocolFacts.

(** ** Reachable states *)

Section ReachableFacts.
Context `{Shared} `{Api} `{Utils}.
Variable props : Props.

(** What a click leaves behind: after the guard, and after the whole
    handler. *)
Lemma click_cases (registry : ActionsRegistry) (c : Controller)
  (values : nat -> option string) (component : ActionComponent.t)
  (params : option (string -> option string)) :
  (must_block props (actionState c) (fresh_state props registry) = true
   /\ controller (snd (execute_guard props registry component params (start c values)))
      = {| actionState := fresh_state props registry;
           executionState := only_status blocked |}
   /\ controller (snd (execute props registry component params (start c values)))
      = {| actionState := fresh_state props registry;
           executionState := only_status blocked |})
  \/ (must_block props (actionState c) (fresh_state props registry) = false
      /\ controller (snd (execute_guard props registry component params (start c values)))
         = {| actionState := actionState c;
              executionState := mkExecution executing (Some component) None None |}
      /\ actionState
           (controller (snd (execute props registry component params (start c values))))
         = actionState c
      /\ (executionState
            (controller (snd (execute props registry component params (start c values))))
          = only_status idle
          \/ (exists msg,
                executionState
                  (controller
                     (snd (execute props registry component params (start c values))))
                = mkExecution error (Some component) (Some msg) None)
          \/ (exists msg,
                executionState
                  (controller
                     (snd (execute props registry component params (start c values))))
                = mkExecution success (Some component) None msg)
          \/ executionState
               (controller
                  (snd (execute props registry component params (start c values))))
             = mkExecution executing (Some component) None None)).
Proof.
  destruct (must_block props (actionState c) (fresh_state props registry)) eqn:Hblock.
  - left. split; [reflexivity|].
    destruct (execute_guard_blocks props registry c values component params Hblock)
      as [values' Hguard].
    rewrite (execute_after_return props registry component params _ _ Hguard).
    rewrite Hguard. simpl. auto.
  - right. split; [reflexivity|].
    destruct (execute_guard_passes props registry c values component params Hblock)
      as [values' Hguard].
    rewrite (execute_after_initiate props registry component params _ _ Hguard).
    rewrite Hguard. simpl. split; [reflexivity|].
    apply (protocol_settles props component).
Qed.

(** The fields of a reachable execution state are tied to its status. *)
Lemma reachable_shape (c : Controller) :
  reachable props c ->
  match status (executionState c) with
  | idle => executionState c = only_status idle
  | blocked => executionState c = only_status blocked
  | executing =>
      exists e, executionState c = mkExecution executing (Some e) None None
  | error =>
      exists e msg, executionState c = mkExecution error (Some e) (Some msg) None
  | success =>
      exists e msg, executionState c = mkExecution success (Some e) None msg
  end.
Proof.
  induction 1 as [registry
                 | c _ _ _
                 | c registry component params values _ _ _
                 | c registry component params values _ _ _].
  - unfold mount, initial_status; simpl.
    now destruct (negb _ && _).
  - reflexivity.
  - destruct (click_cases registry c values component params)
      as [(_ & -> & _) | (_ & -> & _)]; simpl; eauto.
  - destruct (click_cases registry c values component params)
      as [(_ & _ & ->) | (_ & _ & _ & [-> | [[msg ->] | [[msg ->] | ->]]])]; simpl; eauto.
Qed.

(** A reachable [blocked] state whose stored classification passes the
    check is blocked because the overall level is [malicious]. *)
Lemma reachable_blocked_passing (c : Controller) :
  reachable props c ->
  status (executionState c) = blocked ->
  isPassingSecurityCheck props c = true ->
  overallState (actionState c) = malicious.
Proof.
  unfold isPassingSecurityCheck.
  induction 1 as [registry
                 | c _ _ _
                 | c registry component params values _ _ _
                 | c registry component params values _ _ _].
  - unfold mount, initial_status; simpl. intros Hblocked Hpass.
    rewrite Hpass, andb_true_r in Hblocked.
    destruct (state_eqb _ malicious) eqn:Hmal; [|discriminate].
    now apply state_eqb_eq.
  - discriminate.
  - destruct (click_cases registry c values component params)
      as [(Hblock & -> & _) | (_ & -> & _)]; simpl; [|discriminate].
    intros _ Hpass. apply must_block_true_iff in Hblock. destruct Hblock; congruence.
  - destruct (click_cases registry c values component params)
      as [(Hblock & _ & ->) | (_ & _ & _ & [-> | [[msg ->] | [[msg ->] | ->]]])];
      simpl; try discriminate.
    intros _ Hpass. apply must_block_true_iff in Hblock. destruct Hblock; congruence.
Qed.

Lemma override_reaches_idle (c : Controller) :
  override c = {| actionState := actionState c; executionState := only_status idle |}.
Proof. reflexivity. Qed.

Lemma override_offered_iff (c : Controller) :
  offers_override (rendered_disclaimer props c) = true <->
  overallState (actionState c) = malicious
  /\ status (executionState c) = blocked
  /\ isPassingSecurityCheck props c = true.
Proof.
  unfold rendered_disclaimer, disclaimer.
  rewrite <- state_eqb_eq, <- status_eqb_eq.
  destruct (state_eqb (overallState (actionState c)) malicious),
    (status_eqb (status (executionState c)) blocked); simpl;
    try (destruct (state_eqb _ unknown); simpl); intuition congruence.
Qed.

(** In a reachable [blocked] state the override is offered exactly when
    [checkSecurityFromActionState] passes on the stored classification. *)
Lemma blocked_override_iff_passing (c : Controller) :
  reachable props c ->
  status (executionState c) = blocked ->
  offers_override (rendered_disclaimer props c) = isPassingSecurityCheck props c.
Proof.
  intros Hreach Hblocked.
  destruct (isPassingSecurityCheck props c) eqn:Hpass.
  - apply override_offered_iff. repeat split; trivial.
    now apply reachable_blocked_passing.
  - apply not_true_is_false. rewrite override_offered_iff. intuition congruence.
Qed.

(** No control of a [blocked] container can be clicked: without the
    override the state stays [blocked]. *)
Lemma blocked_not_clickable (c : Controller) (it : ActionComponent.t) :
  status (executionState c) = blocked ->
  ~ clickable props c it.
Proof.
  intros Hblocked [_ Henabled]. unfold asButtonProps in Henabled; simpl in Henabled.
  rewrite Hblocked in Henabled. simpl in Henabled.
  now rewrite orb_true_r in Henabled.
Qed.

End ReachableFacts.

(** ** The claims about mounting, the override and the guard *)

(** C3.  A freshly mounted container stores the classification it reads
    from the registry; its initial status is [blocked] exactly when the
    merged overall level is [malicious] or the admission check on that
    classification reports [false], and [idle] otherwise; no other field of
    the execution state is set. *)
Theorem C3_initial_status :
  forall (shared : Shared) (api : Api) (utils : Utils)
         (props : Props) (registry : ActionsRegistry),
    actionState (mount props registry) = fresh_state props registry
    /\ executionState (mount props registry)
       = only_status (status (executionState (mount props registry)))
    /\ (status (executionState (mount props registry)) = blocked <->
        overallState (fresh_state props registry) = malicious
        \/ checkSecurityFromActionState (fresh_state props registry)
             (normalizedSecurityLevel (securityLevel props)) = false)
    /\ (status (executionState (mount props registry)) = idle <->
        ~ (overallState (fresh_state props registry) = malicious
           \/ checkSecurityFromActionState (fresh_state props registry)
                (normalizedSecurityLevel (securityLevel props)) = false)).
Proof.
  intros shared api utils props registry.
  unfold mount, fresh_state, initial_status; simpl.
  split; [reflexivity|]. split; [reflexivity|].
  rewrite <- state_eqb_eq.
  destruct (state_eqb _ malicious), (checkSecurityFromActionState _ _); simpl;
    intuition congruence.
Qed.

(** C2, evaluated on a [malicious] action referenced directly under the
    ['only-trusted'] policy: the container mounts [blocked], the policy
    forbids the level (the action-level check and the spec's admission
    formula are both false), and still the override is offered, leads to
    [idle], and a click then runs the whole protocol to [success]. *)
Theorem C2_override_offered_against_policy :
  status (executionState (mount strict_direct flagged_action)) = blocked
  /\ checkSecurity (state_action (actionState (mount strict_direct flagged_action)))
       (normalizedSecurityLevel (securityLevel strict_direct) actions) = false
  /\ spec_admission (actionState (mount strict_direct flagged_action))
       (normalizedSecurityLevel (securityLevel strict_direct)) = false
  /\ offers_override
       (rendered_disclaimer strict_direct (mount strict_direct flagged_action)) = true
  /\ status (executionState (override (mount strict_direct flagged_action))) = idle
  /\ status
       (executionState
          (controller
             (snd (execute strict_direct flagged_action swap_button None
                     (start (override (mount strict_direct flagged_action)) no_values)))))
     = success.
Proof. repeat split. Qed.



(** ** The claims about the protocol steps *)

Section Outcomes.
Context `{Shared} `{Api} `{Utils}.

(** A guard that falls through has dispatched INITIATE and changed
    nothing else of the container. *)
Lemma guard_initiated (props : Props) (registry : ActionsRegistry)
  (c : Controller) (values : nat -> option string)
  (component : ActionComponent.t) (params : option (string -> option string)) :
  fst (execute_guard props registry component params (start c values)) = Normal tt ->
  exists values',
    execute_guard props registry component params (start c values)
    = (Normal tt,
       {| controller :=
            {| actionState := actionState c;
               executionState := mkExecution executing (Some component) None None |};
          values := values';
          trace := [Dispatch (INITIATE component None)] |}).
Proof.
  intros Hnormal.
  destruct (must_block props (actionState c) (fresh_state props registry)) eqn:Hblock.
  - destruct (execute_guard_blocks props registry c values component params Hblock)
      as [values' Hguard].
    rewrite Hguard in Hnormal. discriminate.
  - now apply execute_guard_passes.
Qed.

End Outcomes.

(** C5.  Once the guard has let a click through, if [connect] resolves to
    no account ([null], or the empty string), or if [connect] and [post]
    return and [signTransaction] returns, without throwing, nothing or an
    error result, the handler ends in [idle] with [executingAction]
    cleared and neither message recorded. *)
Theorem C5_decline_returns_to_idle :
  forall (shared : Shared) (utils : Utils)
         (props : Props) (registry : ActionsRegistry) (c : Controller)
         (values : nat -> option string) (component : ActionComponent.t)
         (params : option (string -> option string)),
    fst (execute_guard props registry component params (start c values)) = Normal tt ->
    declines props
      (snd (execute_guard props registry component params (start c values)))
      component ->
    controller (snd (execute props registry component params (start c values)))
    = {| actionState := actionState c;
         executionState := mkExecution idle None None None |}.
Proof.
  intros shared utils props registry c values component params Hnormal Hdeclines.
  destruct (guard_initiated props registry c values component params Hnormal)
    as [values' Hguard].
  rewrite (execute_after_initiate props registry component params _ _ Hguard).
  rewrite Hguard in Hdeclines. simpl in Hdeclines.
  now rewrite (protocol_declines props component _ Hdeclines).
Qed.

(** C5 with a wallet that resolves [connect] to [null], with one whose
    [signTransaction] resolves to [null], and with one whose
    [signTransaction] resolves to an error result. *)
Lemma C5_witness :
  controller
    (snd (execute
            (direct_props (adapter_of (Returns None) (Returns None) (Returns tt))
               only_trusted)
            all_trusted swap_button None
            (start
               (mount
                  (direct_props (adapter_of (Returns None) (Returns None) (Returns tt))
                     only_trusted)
                  all_trusted)
               no_values)))
  = {| actionState := mkActionState trusted None;
       executionState := mkExecution idle None None None |}
  /\ controller
       (snd (execute
               (direct_props (adapter_of wallet (Returns None) (Returns tt)) only_trusted)
               all_trusted swap_button None
               (start
                  (mount
                     (direct_props (adapter_of wallet (Returns None) (Returns tt))
                        only_trusted)
                     all_trusted)
                  no_values)))
     = {| actionState := mkActionState trusted None;
          executionState := mkExecution idle None None None |}
  /\ controller
       (snd (execute
               (direct_props
                  (adapter_of wallet (Returns (Some (ErrorResult "User rejected")))
                     (Returns tt))
                  only_trusted)
               all_trusted swap_button None
               (start
                  (mount
                     (direct_props
                        (adapter_of wallet (Returns (Some (ErrorResult "User rejected")))
                           (Returns tt))
                        only_trusted)
                     all_trusted)
                  no_values)))
     = {| actionState := mkActionState trusted None;
          executionState := mkExecution idle None None None |}.
Proof.
  split; [|split].
  - apply (C5_decline_returns_to_idle spec_Shared sample_Utils
             (direct_props (adapter_of (Returns None) (Returns None) (Returns tt))
                only_trusted)
             all_trusted
             (mount
                (direct_props (adapter_of (Returns None) (Returns None) (Returns tt))
                   only_trusted)
                all_trusted)
             no_values swap_button None).
    + reflexivity.
    + apply connect_returns_no_account. reflexivity.
  - apply (C5_decline_returns_to_idle spec_Shared sample_Utils
             (direct_props (adapter_of wallet (Returns None) (Returns tt)) only_trusted)
             all_trusted
             (mount
                (direct_props (adapter_of wallet (Returns None) (Returns tt)) only_trusted)
                all_trusted)
             no_values swap_button None).
    + reflexivity.
    + apply sign_returns_nothing
        with (account := "7xKXtg2CW87d") (tx := mkPost "AQAB" (Some "Swap complete"));
        [reflexivity | discriminate | reflexivity | reflexivity].
  - apply (C5_decline_returns_to_idle spec_Shared sample_Utils
             (direct_props
                (adapter_of wallet (Returns (Some (ErrorResult "User rejected")))
                   (Returns tt))
                only_trusted)
             all_trusted
             (mount
                (direct_props
                   (adapter_of wallet (Returns (Some (ErrorResult "User rejected")))
                      (Returns tt))
                   only_trusted)
                all_trusted)
             no_values swap_button None).
    + reflexivity.
    + apply sign_returns_error
        with (account := "7xKXtg2CW87d") (tx := mkPost "AQAB" (Some "Swap complete"))
             (reason := "User rejected");
        [reflexivity | discriminate | reflexivity | reflexivity].
Defined.

(** Where a step throws anything but [null] and [undefined], the handler
    ends in [error] with [errorMessage] the thrown message, or
    ["Unknown error"] when the thrown value carries none (a thrown string
    carries none), and with [successMessage] cleared. *)
Lemma thrown_value_reaches_error :
  forall (shared : Shared) (utils : Utils)
         (props : Props) (registry : ActionsRegistry) (c : Controller)
         (values : nat -> option string) (component : ActionComponent.t)
         (params : option (string -> option string)) (e : JsError),
    fst (execute_guard props registry component params (start c values)) = Normal tt ->
    throws props
      (snd (execute_guard props registry component params (start c values)))
      component (ThrownValue e) ->
    controller (snd (execute props registry component params (start c values)))
    = {| actionState := actionState c;
         executionState :=
           mkExecution error (Some component)
             (Some match message e with
                   | Some thrown => thrown
                   | None => "Unknown error"
                   end)
             None |}.
Proof.
  intros shared utils props registry c values component params e Hnormal Hthrows.
  destruct (guard_initiated props registry c values component params Hnormal)
    as [values' Hguard].
  rewrite (execute_after_initiate props registry component params _ _ Hguard).
  rewrite Hguard in Hthrows. simpl in Hthrows.
  now rewrite (protocol_throws props component _ e Hthrows).
Qed.

(** Where a step throws [null] or [undefined], the catch block throws in
    its turn: nothing follows INITIATE and the container stays in
    [executing] after the handler has ended. *)
Lemma nullish_rejection_stays_executing :
  forall (shared : Shared) (utils : Utils)
         (props : Props) (registry : ActionsRegistry) (c : Controller)
         (values : nat -> option string) (component : ActionComponent.t)
         (params : option (string -> option string)),
    fst (execute_guard props registry component params (start c values)) = Normal tt ->
    throws props
      (snd (execute_guard props registry component params (start c values)))
      component ThrownNullish ->
    (exists e,
        fst (execute props registry component params (start c values)) = Throw e)
    /\ controller (snd (execute props registry component params (start c values)))
       = {| actionState := actionState c;
            executionState := mkExecution executing (Some component) None None |}
    /\ dispatched (trace (snd (execute props registry component params (start c values))))
       = [INITIATE component None].
Proof.
  intros shared utils props registry c values component params Hnormal Hthrows.
  destruct (guard_initiated props registry c values component params Hnormal)
    as [values' Hguard].
  rewrite (execute_after_initiate props registry component params _ _ Hguard).
  rewrite Hguard in Hthrows. simpl in Hthrows.
  destruct (protocol_rejects props component _ Hthrows) as (Hthrown & -> & ->).
  split; [exact Hthrown|]. split; reflexivity.
Qed.

(** C6, evaluated on a wallet whose [connect] rejects with [undefined]
    (as [Promise.reject()] does): the handler dispatches INITIATE and
    nothing else, its promise rejects, and the container is left in
    [executing] with no error message, where the claim has it reach
    [error] with the generic fallback.  A wallet whose [signTransaction]
    throws an Error "insufficient funds" does reach [error] with that
    message. *)
Theorem C6_nullish_rejection_never_fails :
  controller
    (snd (execute
            (direct_props (adapter_of (Throws ThrownNullish) (Returns None) (Returns tt))
               only_trusted)
            all_trusted swap_button None
            (start
               (mount
                  (direct_props
                     (adapter_of (Throws ThrownNullish) (Returns None) (Returns tt))
                     only_trusted)
                  all_trusted)
               no_values)))
  = {| actionState := mkActionState trusted None;
       executionState := mkExecution executing (Some swap_button) None None |}
  /\ dispatched
       (trace
          (snd (execute
                  (direct_props
                     (adapter_of (Throws ThrownNullish) (Returns None) (Returns tt))
                     only_trusted)
                  all_trusted swap_button None
                  (start
                     (mount
                        (direct_props
                           (adapter_of (Throws ThrownNullish) (Returns None) (Returns tt))
                           only_trusted)
                        all_trusted)
                     no_values))))
     = [INITIATE swap_button None]
  /\ executionState
       (controller
          (snd (execute
                  (direct_props
                     (adapter_of wallet
                        (Throws (ThrownValue (mkError (Some "insufficient funds"))))
                        (Returns tt))
                     only_trusted)
                  all_trusted swap_button None
                  (start
                     (mount
                        (direct_props
                           (adapter_of wallet
                              (Throws (ThrownValue (mkError (Some "insufficient funds"))))
                              (Returns tt))
                           only_trusted)
                        all_trusted)
                     no_values))))
     = mkExecution error (Some swap_button) (Some "insufficient funds") None.
Proof. repeat split. Qed.

(** C7.  Once the guard has let a click through, if [connect] returns an
    account, [post] produces the transaction [tx], [signTransaction]
    returns a signature and [confirmTransaction] completes, the handler
    ends in [success] with [successMessage] the message of [tx] and
    [errorMessage] cleared. *)
Theorem C7_success_records_message :
  forall (shared : Shared) (utils : Utils)
         (props : Props) (registry : ActionsRegistry) (c : Controller)
         (values : nat -> option string) (component : ActionComponent.t)
         (params : option (string -> option string)) (tx : PostResponse),
    fst (execute_guard props registry component params (start c values)) = Normal tt ->
    completes props
      (snd (execute_guard props registry component params (start c values)))
      component tx ->
    controller (snd (execute props registry component params (start c values)))
    = {| actionState := actionState c;
         executionState :=
           mkExecution success (Some component) None (post_message tx) |}.
Proof.
  intros shared utils props registry c values component params tx Hnormal Hcompletes.
  destruct (guard_initiated props registry c values component params Hnormal)
    as [values' Hguard].
  rewrite (execute_after_initiate props registry component params _ _ Hguard).
  rewrite Hguard in Hcompletes. simpl in Hcompletes.
  now rewrite (protocol_completes props component _ tx Hcompletes).
Qed.

(** C7 with a wallet that connects, signs and confirms: the message of the
    posted transaction, "Swap complete", is recorded. *)
Lemma C7_witness :
  executionState
    (controller
       (snd (execute strict_direct all_trusted swap_button None
               (start (mount strict_direct all_trusted) no_values))))
  = mkExecution success (Some swap_button) None (Some "Swap complete").
Proof.
  rewrite (C7_success_records_message spec_Shared sample_Utils
             strict_direct all_trusted (mount strict_direct all_trusted)
             no_values swap_button None (mkPost "AQAB" (Some "Swap complete"))).
  - reflexivity.
  - reflexivity.
  - apply all_steps_succeed with (account := Some "7xKXtg2CW87d")
                                 (signature := "5VERv8NMvzbJ");
      reflexivity.
Defined.

(** ** The claims about rendering *)

Lemma in_toSpliced {A : Type} (x : A) (l : list A) (start : nat) :
  In x (toSpliced l start) -> In x l.
Proof.
  unfold toSpliced. intros Hin.
  rewrite <- (firstn_skipn start l). apply in_or_app. now left.
Qed.

Lemma toSpliced_prefix {A : Type} (l : list A) (start : nat) :
  exists rest, l = (toSpliced l start ++ rest)%list.
Proof. exists (skipn start l). unfold toSpliced. now rewrite firstn_skipn. Qed.

Lemma filter_free (state : ExecutionState) (l : list ActionComponent.t) :
  executingAction state = None ->
  filter (is_executing_or_free state) l = l.
Proof.
  intros Hfree. induction l as [|it l IH]; simpl; [reflexivity|].
  unfold is_executing_or_free at 1. rewrite Hfree. now rewrite IH.
Qed.

Lemma rendered_is_executing (props : Props) (c : Controller)
  (e it : ActionComponent.t) :
  executingAction (executionState c) = Some e ->
  In it (rendered props c) ->
  ActionComponent.ref it = ActionComponent.ref e.
Proof.
  intros Hexecuting Hin. unfold rendered, buttons, inputs in Hin.
  apply in_app_or in Hin.
  assert (Hshown : is_executing_or_free (executionState c) it = true).
  { destruct Hin as [Hin | Hin]; apply in_toSpliced, filter_In in Hin; tauto. }
  unfold is_executing_or_free in Hshown. rewrite Hexecuting in Hshown.
  unfold ActionComponent.same in Hshown. apply Nat.eqb_eq in Hshown. congruence.
Qed.

Lemma loading_iff (action : Action.t) (state : ExecutionState)
  (it : ActionComponent.t) :
  loading (asButtonProps action state it) = true <->
  status state = executing
  /\ exists e, executingAction state = Some e
               /\ ActionComponent.ref it = ActionComponent.ref e.
Proof.
  unfold asButtonProps; simpl.
  rewrite andb_true_iff, status_eqb_eq.
  destruct (executingAction state) as [e|].
  - unfold ActionComponent.same. rewrite Nat.eqb_eq. split.
    + intros [Hs Href]. split; [exact Hs|]. now exists e.
    + intros [Hs (e' & Heq & Href)]. inversion Heq; subst. tauto.
  - split; [intros [_ Habs]; discriminate|].
    intros [_ (e' & Heq & _)]. discriminate.
Qed.

(** C8.  In every reachable state of a container: [executingAction] is set
    whenever the status is [executing] and unset in [idle] and [blocked];
    a component's loading flag is on exactly when the status is [executing]
    and the component is [executingAction]; so any two components shown as
    loading are the same object; and while [executingAction] is set, every
    rendered button and input is that component. *)
Theorem C8_single_executing :
  forall (shared : Shared) (api : Api) (utils : Utils)
         (props : Props) (c : Controller),
    reachable props c ->
    (status (executionState c) = executing ->
     exists e, executingAction (executionState c) = Some e)
    /\ (status (executionState c) = idle \/ status (executionState c) = blocked ->
        executingAction (executionState c) = None)
    /\ (forall it,
          loading (asButtonProps (action props) (executionState c) it) = true <->
          status (executionState c) = executing
          /\ exists e, executingAction (executionState c) = Some e
                       /\ ActionComponent.ref it = ActionComponent.ref e)
    /\ (forall it1 it2,
          loading (asButtonProps (action props) (executionState c) it1) = true ->
          loading (asButtonProps (action props) (executionState c) it2) = true ->
          ActionComponent.ref it1 = ActionComponent.ref it2)
    /\ (forall e it,
          executingAction (executionState c) = Some e ->
          In it (rendered props c) ->
          ActionComponent.ref it = ActionComponent.ref e).
Proof.
  intros shared api utils props c Hreach.
  pose proof (reachable_shape props c Hreach) as Hshape.
  split; [|split; [|split; [|split]]].
  - intros Hs. rewrite Hs in Hshape. destruct Hshape as [e ->]. now exists e.
  - intros [Hs | Hs]; rewrite Hs in Hshape; now rewrite Hshape.
  - intros it. apply loading_iff.
  - intros it1 it2 H1 H2.
    apply loading_iff in H1. apply loading_iff in H2.
    destruct H1 as [_ (e1 & He1 & Hr1)]. destruct H2 as [_ (e2 & He2 & Hr2)].
    congruence.
  - intros e it. apply rendered_is_executing.
Qed.

(** C8 on the container right after a click on "Stake": only "Stake" is
    rendered. *)
Lemma C8_witness :
  reachable strict_direct staking
  /\ (forall it, In it (rendered strict_direct staking) ->
                 ActionComponent.ref it = ActionComponent.ref stake_button).
Proof.
  assert (Hreach : reachable strict_direct staking).
  { unfold staking. apply reach_click.
    - apply reach_mount.
    - split; [right; left; reflexivity | reflexivity]. }
  split; [exact Hreach|].
  intros it.
  destruct (C8_single_executing spec_Shared spec_Api sample_Utils
              strict_direct staking Hreach) as (_ & _ & _ & _ & Hrendered).
  apply Hrendered. reflexivity.
Defined.

(** C9 as stated fails once a component is marked executing: right after a
    click on "Stake" the only rendered button is "Stake" and no input is
    rendered, while the first parameterless components of the action are
    "Swap" and "Stake" and its first single-parameter component is "Buy". *)
Lemma C9_counterexample :
  reachable strict_direct staking
  /\ buttons (action strict_direct) (executionState staking)
     <> firstn 10 (filter (fun it => negb (has_parameter it))
                     (Action.actions (action strict_direct)))
  /\ inputs (action strict_direct) (executionState staking)
     <> firstn 3 (filter has_parameter (Action.actions (action strict_direct))).
Proof.
  split; [|split].
  - unfold staking. apply reach_click.
    + apply reach_mount.
    + split; [right; left; reflexivity | reflexivity].
  - intros Heq. apply (f_equal (@List.length _)) in Heq. discriminate Heq.
  - intros Heq. apply (f_equal (@List.length _)) in Heq. discriminate Heq.
Qed.

Lemma filter_marked (state : ExecutionState) (e : ActionComponent.t)
  (l : list ActionComponent.t) :
  executingAction state = Some e ->
  filter (is_executing_or_free state) l
  = filter (fun it => Nat.eqb (ActionComponent.ref e) (ActionComponent.ref it)) l.
Proof.
  intros Hmarked. apply filter_ext. intros it.
  unfold is_executing_or_free. now rewrite Hmarked.
Qed.

(** C9, amended.  While no component is marked executing, the rendered
    buttons are the first at most 10 parameterless components of the
    action, in its order, and the rendered inputs the first at most 3
    components with a parameter.  While a component is marked (in
    [executing], [success] and [error]), only that component is rendered:
    the buttons are the first at most 10 parameterless components that are
    the marked object, the inputs the first at most 3 components with a
    parameter that are the marked object, so every rendered control is the
    marked component, and a list whose kind the marked component is not of
    is empty.  In every state there are at most 10 buttons and 3 inputs,
    each a component of the action; what lies beyond the caps is left
    out. *)
Theorem C9_rendered_caps :
  forall (action : Action.t) (state : ExecutionState),
    (executingAction state = None ->
     buttons action state
     = firstn 10 (filter (fun it => negb (has_parameter it)) (Action.actions action))
     /\ inputs action state
        = firstn 3 (filter has_parameter (Action.actions action)))
    /\ (forall marked,
          executingAction state = Some marked ->
          buttons action state
          = firstn 10
              (filter (fun it => negb (has_parameter it)
                                 && Nat.eqb (ActionComponent.ref marked)
                                      (ActionComponent.ref it))
                 (Action.actions action))
          /\ inputs action state
             = firstn 3
                 (filter (fun it => has_parameter it
                                    && Nat.eqb (ActionComponent.ref marked)
                                         (ActionComponent.ref it))
                    (Action.actions action))
          /\ (forall it,
                In it (buttons action state) \/ In it (inputs action state) ->
                ActionComponent.ref it = ActionComponent.ref marked)
          /\ (has_parameter marked = true ->
              (forall it, In it (Action.actions action) ->
                          ActionComponent.ref it = ActionComponent.ref marked ->
                          has_parameter it = true) ->
              buttons action state = [])
          /\ (has_parameter marked = false ->
              (forall it, In it (Action.actions action) ->
                          ActionComponent.ref it = ActionComponent.ref marked ->
                          has_parameter it = false) ->
              inputs action state = []))
    /\ List.length (buttons action state) <= 10
    /\ List.length (inputs action state) <= 3
    /\ (forall it,
          In it (buttons action state) ->
          In it (Action.actions action) /\ has_parameter it = false)
    /\ (forall it,
          In it (inputs action state) ->
          In it (Action.actions action) /\ has_parameter it = true).
Proof.
  intros action state.
  assert (Hfused : forall (p q : ActionComponent.t -> bool) l,
             filter q (filter p l) = filter (fun it => p it && q it) l).
  { intros p q l. induction l as [|x l IH]; simpl; [reflexivity|].
    destruct (p x); simpl; [destruct (q x); now rewrite IH | exact IH]. }
  assert (Hempty : forall (p : ActionComponent.t -> bool) l,
             (forall it, In it l -> p it = false) -> filter p l = []).
  { intros p l Hnone. induction l as [|x l IH]; simpl; [reflexivity|].
    rewrite (Hnone x (or_introl eq_refl)). apply IH.
    intros it Hin. apply Hnone. now right. }
  split; [|split; [|split; [|split; [|split]]]].
  - intros Hfree. unfold buttons, inputs, toSpliced.
    now rewrite !(filter_free state _ Hfree).
  - intros marked Hmarked.
    assert (Hbuttons : buttons action state
                       = firstn 10
                           (filter (fun it => negb (has_parameter it)
                                              && Nat.eqb (ActionComponent.ref marked)
                                                   (ActionComponent.ref it))
                              (Action.actions action))).
    { unfold buttons, toSpliced.
      now rewrite (filter_marked state marked _ Hmarked), Hfused. }
    assert (Hinputs : inputs action state
                      = firstn 3
                          (filter (fun it => has_parameter it
                                             && Nat.eqb (ActionComponent.ref marked)
                                                  (ActionComponent.ref it))
                             (Action.actions action))).
    { unfold inputs, toSpliced.
      now rewrite (filter_marked state marked _ Hmarked), Hfused. }
    split; [exact Hbuttons|]. split; [exact Hinputs|]. split; [|split].
    + intros it Hin. rewrite Hbuttons, Hinputs in Hin.
      assert (Hboth : forall n p,
                 In it (firstn n
                          (filter (fun it => p it
                                             && Nat.eqb (ActionComponent.ref marked)
                                                  (ActionComponent.ref it))
                             (Action.actions action))) ->
                 ActionComponent.ref it = ActionComponent.ref marked).
      { intros n p Hfirst. apply (in_toSpliced it _ n) in Hfirst.
        apply filter_In in Hfirst. destruct Hfirst as [_ Hsame].
        apply andb_true_iff in Hsame. destruct Hsame as [_ Hsame].
        apply Nat.eqb_eq in Hsame. congruence. }
      destruct Hin as [Hin | Hin]; [apply (Hboth 10 _ Hin) | apply (Hboth 3 _ Hin)].
    + intros Hkind Hunique. rewrite Hbuttons, Hempty; [reflexivity|].
      intros it Hin.
      destruct (Nat.eqb (ActionComponent.ref marked) (ActionComponent.ref it)) eqn:Hsame;
        [|apply andb_false_r].
      apply Nat.eqb_eq in Hsame. rewrite (Hunique it Hin (eq_sym Hsame)). reflexivity.
    + intros Hkind Hunique. rewrite Hinputs, Hempty; [reflexivity|].
      intros it Hin.
      destruct (Nat.eqb (ActionComponent.ref marked) (ActionComponent.ref it)) eqn:Hsame;
        [|apply andb_false_r].
      apply Nat.eqb_eq in Hsame. rewrite (Hunique it Hin (eq_sym Hsame)). reflexivity.
  - unfold buttons, toSpliced. apply firstn_le_length.
  - unfold inputs, toSpliced. apply firstn_le_length.
  - intros it Hin. unfold buttons in Hin.
    apply in_toSpliced, filter_In in Hin. destruct Hin as [Hin _].
    apply filter_In in Hin. destruct Hin as [Hin Hkind].
    split; [exact Hin | now apply negb_true_iff].
  - intros it Hin. unfold inputs in Hin.
    apply in_toSpliced, filter_In in Hin. destruct Hin as [Hin _].
    now apply filter_In in Hin.
Qed.

(** C9 on an idle container for an action with twelve buttons and four
    inputs (ten buttons and three inputs are rendered, the first ones), and
    on the container right after a click on "Stake" (only "Stake" is
    rendered, and no input). *)
Lemma C9_witness :
  (map ActionComponent.ref (buttons crowded_action (mkExecution idle None None None))
   = [0; 1; 2; 3; 4; 5; 6; 7; 8; 9]
   /\ map ActionComponent.ref (inputs crowded_action (mkExecution idle None None None))
      = [12; 13; 14])
  /\ (map ActionComponent.ref (buttons (action strict_direct) (executionState staking))
      = [2]
      /\ inputs (action strict_direct) (executionState staking) = []).
Proof.
  split.
  - destruct (C9_rendered_caps crowded_action (mkExecution idle None None None))
      as (Hidle & _).
    destruct (Hidle eq_refl) as [-> ->].
    split; reflexivity.
  - destruct (C9_rendered_caps (action strict_direct) (executionState staking))
      as (_ & Hmarked & _).
    destruct (Hmarked stake_button eq_refl) as (-> & _ & _ & _ & Hnone).
    split; [reflexivity|].
    apply Hnone; [reflexivity|].
    intros it [<- | [<- | [<- | []]]]; simpl; intros Href;
      try reflexivity; discriminate Href.
Defined.

(** * Further properties of the code *)

(** ** The observer *)

(** X1.  Whatever the caller supplies as security level (nothing, one
    level, or a level per source), the policy the observer normalizes and
    hands to the container is the policy the container would have
    normalized from the caller's setting itself, the missing setting read
    as ['only-trusted']: normalizing twice changes nothing. *)
Theorem X1_normalization_agrees :
  forall (securityLevel : option SecurityLevelProp) (source : Source),
    normalizedSecurityLevel (PerSource (normalizeOptions securityLevel)) source
    = normalizedSecurityLevel
        (nullish securityLevel (Uniform DEFAULT_SECURITY_LEVEL)) source
    /\ normalizeOptions (Some (PerSource (normalizeOptions securityLevel))) source
       = normalizeOptions securityLevel source.
Proof.
  intros [[level | levels]|] source; split; reflexivity.
Qed.

Lemma Element_nested_ind (P : Element -> Prop) :
  (forall localName testid href children,
      Forall P children -> P (El localName testid href children)) ->
  forall e, P e.
Proof.
  intros Hstep. fix IH 1. intros [localName testid href children].
  apply Hstep. induction children as [|child children IHchildren];
    constructor; [apply IH | exact IHchildren].
Qed.

Lemma first_some_found {A B : Type} (f : A -> option B) (l : list A) (r : B) :
  first_some f l = Some r -> exists x, In x l /\ f x = Some r.
Proof.
  induction l as [|x l IH]; simpl; [discriminate|].
  destruct (f x) as [r'|] eqn:Hfx.
  - intros Heq. inversion Heq; subst. exists x. auto.
  - intros Hrest. destruct (IH Hrest) as (y & Hin & Hfy). exists y. auto.
Qed.

Lemma first_some_none {A B : Type} (f : A -> option B) (l : list A) :
  first_some f l = None -> forall x, In x l -> f x = None.
Proof.
  induction l as [|y l IH]; simpl; [tauto|].
  destruct (f y) eqn:Hfy; [discriminate|].
  intros Hrest x [-> | Hin]; [exact Hfy | now apply IH].
Qed.

Lemma first_match_sound (testId : string) (e r : Element) :
  first_match testId e = Some r -> has_testid testId r = true /\ within r e.
Proof.
  revert r. induction e as [localName testid href children IH] using Element_nested_ind.
  intros r. simpl.
  destruct (has_testid testId (El localName testid href children)) eqn:Hown.
  - intros Heq. inversion Heq; subst. split; [exact Hown | constructor].
  - intros Hfound. apply first_some_found in Hfound.
    destruct Hfound as (child & Hin & Hchild).
    rewrite Forall_forall in IH. destruct (IH child Hin r Hchild) as [Hid Hwithin].
    split; [exact Hid|]. now apply within_child with child.
Qed.

Lemma first_match_complete (testId : string) (e : Element) :
  first_match testId e = None ->
  forall x, within x e -> has_testid testId x = false.
Proof.
  intros Hnone x Hwithin. induction Hwithin as [|e child Hin Hwithin IH].
  - destruct x as [localName testid href children]. simpl in Hnone.
    destruct (has_testid testId (El localName testid href children));
      [discriminate | reflexivity].
  - apply IH. destruct e as [localName testid href children]. simpl in Hnone, Hin.
    destruct (has_testid testId (El localName testid href children));
      [discriminate|].
    exact (first_some_none _ _ Hnone child Hin).
Qed.

Lemma findElementByTestId_first_match (engine : SelectorEngine)
  (element : Element) (testId : string) :
  css_plain testId = true ->
  findElementByTestId engine element testId = Returns (first_match testId element).
Proof.
  intros Hplain. unfold findElementByTestId, querySelector. rewrite Hplain.
  destruct element as [localName testid href children]. simpl.
  now destruct (has_testid testId (El localName testid href children)).
Qed.

(** X2.  For a test id that CSS reads back unchanged between double quotes
    (no double quote, backslash, line break or NUL), whatever the selector
    engine does with other texts: [findElementByTestId] does not throw, it
    answers only with an element that carries the test id and lies in the
    searched subtree (the element itself or a descendant), and it answers
    with nothing exactly when no element of the subtree carries the id.
    For any test id, an element that carries the id itself is returned
    before any selector is run. *)
Theorem X2_findElementByTestId_correct :
  forall (engine : SelectorEngine) (element : Element) (testId : string),
    (css_plain testId = true ->
     (exists answer, findElementByTestId engine element testId = Returns answer)
     /\ (forall found,
           findElementByTestId engine element testId = Returns (Some found) ->
           testid_of found = Some testId /\ within found element)
     /\ (findElementByTestId engine element testId = Returns None <->
         forall x, within x element -> testid_of x <> Some testId))
    /\ (testid_of element = Some testId ->
        findElementByTestId engine element testId = Returns (Some element)).
Proof.
  intros engine element testId.
  assert (Hid : forall x, has_testid testId x = true <-> testid_of x = Some testId).
  { intros x. unfold has_testid. destruct (testid_of x) as [value|].
    - rewrite String.eqb_eq. split; congruence.
    - split; discriminate. }
  split.
  - intros Hplain. rewrite (findElementByTestId_first_match engine _ _ Hplain).
    split; [eexists; reflexivity|]. split.
    + intros found Hfound. inversion Hfound as [Hmatch].
      apply first_match_sound in Hmatch.
      destruct Hmatch as [Hhas Hwithin]. split; [now apply Hid | exact Hwithin].
    + split.
      * intros Hnone x Hwithin Habs. inversion Hnone as [Hmatch].
        apply Hid in Habs.
        now rewrite (first_match_complete testId element Hmatch x Hwithin) in Habs.
      * intros Hnobody.
        destruct (first_match testId element) as [found|] eqn:Hfound; [|reflexivity].
        apply first_match_sound in Hfound. destruct Hfound as [Hhas Hwithin].
        exfalso. apply (Hnobody found Hwithin). now apply Hid.
  - intros Hown. apply Hid in Hown. unfold findElementByTestId. now rewrite Hown.
Qed.

Lemma X2_witness :
  findElementByTestId (selectorEngine sample_network)
    (tweet_card "https://t.co/abc") "card.wrapper"
  = Returns
      (Some (El "div" (Some "card.wrapper") None
               [El "div" None None [El "a" None (Some "https://t.co/abc") []]]))
  /\ within
       (El "div" (Some "card.wrapper") None
          [El "div" None None [El "a" None (Some "https://t.co/abc") []]])
       (tweet_card "https://t.co/abc").
Proof.
  split; [reflexivity|].
  destruct (X2_findElementByTestId_correct (selectorEngine sample_network)
              (tweet_card "https://t.co/abc") "card.wrapper")
    as [Hplain _].
  destruct (Hplain eq_refl) as (_ & Hsound & _).
  apply (Hsound _ eq_refl).
Defined.

Lemma scan_added_elements (elements : list Element) :
  scan_added (map ElementNode elements) = (elements, false).
Proof.
  induction elements as [|e elements IH]; simpl; [reflexivity|]. now rewrite IH.
Qed.

Lemma scan_added_stops (elements : list Element) (rest : list Node) :
  scan_added (map ElementNode elements ++ OtherNode :: rest)%list = (elements, true).
Proof.
  induction elements as [|e elements IH]; simpl; [reflexivity|]. now rewrite IH.
Qed.

(** X3.  The MutationObserver callback hands every added element to
    [handleNewNode], in order, as long as all added nodes are elements; the
    first added node that is not an element ends the whole callback, so
    neither the nodes after it in the same record nor the nodes of the
    later records are handled. *)
Theorem X3_observer_stops_at_first_other_node :
  forall (before : list (list Element)) (elements : list Element)
         (rest : list Node) (after : list (list Node)),
    observer_callback (map (map ElementNode) before) = List.concat before
    /\ observer_callback
         (map (map ElementNode) before
          ++ (map ElementNode elements ++ OtherNode :: rest) :: after)%list
       = (List.concat before ++ elements)%list.
Proof.
  intros before elements rest after. split.
  - induction before as [|record before IH]; simpl; [reflexivity|].
    rewrite scan_added_elements. now rewrite IH.
  - induction before as [|record before IH]; simpl.
    + now rewrite scan_added_stops.
    + rewrite scan_added_elements, IH. now rewrite app_assoc.
Qed.

Section ObserverFacts.
Context `{Shared} `{Api} `{Utils}.

(** Everything a mounted container tells about the run that mounted it. *)
Lemma handleNewNode_mounted (network : Network) (registry refreshed : ActionsRegistry)
  (element : Element) (config : ActionAdapter) (options : NormalizedSecurityLevel)
  (rootElement : Element) (props : Props) (websiteText : string) :
  handleNewNode network registry refreshed element config options
  = Returns (Mounted rootElement props websiteText) ->
  exists linkPreview anchor actionUrl actionApiUrl,
    localName_of element = "div"
    /\ findElementByTestId (selectorEngine network) element "card.wrapper"
       = Returns (Some rootElement)
    /\ hd_error (children_of rootElement) = Some linkPreview
    /\ hd_error (children_of linkPreview) = Some anchor
    /\ resolveTwitterShortenedUrl network (href_of anchor) = Returns actionUrl
    /\ websiteUrl props = Some (url_href actionUrl)
    /\ websiteText = url_hostname actionUrl
    /\ securityLevel props = PerSource options
    /\ fetchAction network actionApiUrl config = Some (action props)
    /\ actionApiUrl <> ""
    /\ (if isInterstitial (url_href actionUrl)
        then decodedActionUrl network (url_href actionUrl) = Some actionApiUrl
             /\ checkSecurity (getExtendedInterstitialState registry (url_href actionUrl))
                  (options interstitials) = true
             /\ checkSecurity (getExtendedActionState registry actionApiUrl)
                  (options actions) = true
        else mapUrl network actionUrl = Returns (Some actionApiUrl)
             /\ checkSecurity (getExtendedWebsiteState registry (url_href actionUrl))
                  (options websites) = true
             /\ checkSecurity (getExtendedActionState refreshed actionApiUrl)
                  (options actions) = true).
Proof.
  unfold handleNewNode.
  destruct (String.eqb (localName_of element) "div") eqn:Hdiv; simpl; [|discriminate].
  apply String.eqb_eq in Hdiv.
  destruct (findElementByTestId (selectorEngine network) element "card.wrapper")
    as [[root|]|]; try discriminate.
  destruct (children_of root) as [|linkPreview ?] eqn:Hroot; [discriminate|].
  destruct (children_of linkPreview) as [|anchor ?] eqn:Hpreview; [discriminate|].
  destruct (resolveTwitterShortenedUrl network (href_of anchor)) as [actionUrl|]
    eqn:Hresolve; [|discriminate].
  assert (Hmount : forall state_registry actionApiUrl,
             (if negb (truthy actionApiUrl) then Skipped
              else if negb (checkSecurity
                              (getExtendedActionState state_registry
                                 (nullish actionApiUrl "")) (options actions))
                   then Skipped
                   else match fetchAction network (nullish actionApiUrl "") config with
                        | None => Skipped
                        | Some action =>
                            Mounted root
                              {| action := action;
                                 websiteUrl := Some (url_href actionUrl);
                                 securityLevel := PerSource options |}
                              (url_hostname actionUrl)
                        end)
             = Mounted rootElement props websiteText ->
             exists api,
               actionApiUrl = Some api
               /\ root = rootElement
               /\ websiteUrl props = Some (url_href actionUrl)
               /\ websiteText = url_hostname actionUrl
               /\ securityLevel props = PerSource options
               /\ fetchAction network api config = Some (action props)
               /\ api <> ""
               /\ checkSecurity (getExtendedActionState state_registry api)
                    (options actions) = true).
  { intros state_registry [api|]; simpl; [|discriminate].
    destruct (String.eqb api "") eqn:Hempty; simpl; [discriminate|].
    apply String.eqb_neq in Hempty.
    destruct (checkSecurity (getExtendedActionState state_registry api)
                (options actions)) eqn:Hcheck; simpl; [|discriminate].
    destruct (fetchAction network api config) as [fetched|] eqn:Hfetch; [|discriminate].
    intros Heq. inversion Heq; subst. exists api. simpl. repeat split; auto. }
  destruct (isInterstitial (url_href actionUrl)) eqn:Hinterstitial.
  - destruct (checkSecurity (getExtendedInterstitialState registry (url_href actionUrl))
                (options interstitials)) eqn:Horigin; simpl; [|discriminate].
    intros Heq. inversion Heq as [Hmounted]. apply Hmount in Hmounted.
    destruct Hmounted as (api & Hdecoded & -> & ? & ? & ? & ? & ? & ?).
    exists linkPreview, anchor, actionUrl, api.
    rewrite Hinterstitial, Hroot, Hpreview. repeat split; auto.
  - destruct (checkSecurity (getExtendedWebsiteState registry (url_href actionUrl))
                (options websites)) eqn:Horigin; simpl; [|discriminate].
    destruct (mapUrl network actionUrl) as [actionApiUrl|] eqn:Hmap; [|discriminate].
    intros Heq. inversion Heq as [Hmounted]. apply Hmount in Hmounted.
    destruct Hmounted as (api & -> & -> & ? & ? & ? & ? & ? & ?).
    exists linkPreview, anchor, actionUrl, api.
    rewrite Hinterstitial, Hroot, Hpreview. repeat split; auto.
Qed.

End ObserverFacts.

(** X4.  [handleNewNode] mounts a container only for a [div] in which it
    finds a card wrapper, and only after two checks have passed: the level
    of the expanded link under the policy of its own source
    ([interstitials] for an interstitial link, [websites] otherwise) and
    the level of the action URL under the [actions] policy.  The link is
    the one the shortened [href] of the first child of the wrapper's
    first child expands to; the action URL is the one the interstitial
    link decodes to, or the one the site's [actions.json] maps the link
    to.  The container gets that link as [websiteUrl], the link's host
    name as text, the action fetched from the action URL, and the
    observer's policy. *)
Theorem X4_observer_mounts_only_checked_actions :
  forall (shared : Shared) (utils : Utils)
         (network : Network) (registry refreshed : ActionsRegistry)
         (element : Element) (config : ActionAdapter)
         (options : NormalizedSecurityLevel)
         (rootElement : Element) (props : Props) (websiteText : string),
    handleNewNode network registry refreshed element config options
    = Returns (Mounted rootElement props websiteText) ->
    exists linkPreview anchor actionUrl actionApiUrl,
      localName_of element = "div"
      /\ findElementByTestId (selectorEngine network) element "card.wrapper"
         = Returns (Some rootElement)
      /\ hd_error (children_of rootElement) = Some linkPreview
      /\ hd_error (children_of linkPreview) = Some anchor
      /\ resolveTwitterShortenedUrl network (href_of anchor) = Returns actionUrl
      /\ websiteUrl props = Some (url_href actionUrl)
      /\ websiteText = url_hostname actionUrl
      /\ securityLevel props = PerSource options
      /\ fetchAction network actionApiUrl config = Some (action props)
      /\ actionApiUrl <> ""
      /\ (if isInterstitial (url_href actionUrl)
          then decodedActionUrl network (url_href actionUrl) = Some actionApiUrl
               /\ checkSecurity
                    (getExtendedInterstitialState registry (url_href actionUrl))
                    (options interstitials) = true
               /\ checkSecurity (getExtendedActionState registry actionApiUrl)
                    (options actions) = true
          else mapUrl network actionUrl = Returns (Some actionApiUrl)
               /\ checkSecurity (getExtendedWebsiteState registry (url_href actionUrl))
                    (options websites) = true
               /\ checkSecurity (getExtendedActionState refreshed actionApiUrl)
                    (options actions) = true).
Proof.
  intros shared utils network registry refreshed element config options
    rootElement props websiteText.
  apply handleNewNode_mounted.
Qed.

(** X4 on the sample card: the link is the one the anchor's [href]
    expands to, and the text is its host name. *)
Lemma X4_witness :
  exists anchor actionUrl,
    resolveTwitterShortenedUrl sample_network (href_of anchor) = Returns actionUrl
    /\ websiteUrl observed_props = Some (url_href actionUrl)
    /\ url_hostname actionUrl = "example.org"
    /\ checkSecurity (getExtendedWebsiteState all_trusted (url_href actionUrl))
         only_trusted = true.
Proof.
  destruct (X4_observer_mounts_only_checked_actions spec_Shared sample_Utils
              sample_network all_trusted all_trusted
              (tweet_card "https://t.co/abc") happy_adapter
              (normalizeOptions None)
              (El "div" (Some "card.wrapper") None
                 [El "div" None None [El "a" None (Some "https://t.co/abc") []]])
              observed_props "example.org" eq_refl)
    as (linkPreview & anchor & actionUrl & actionApiUrl
        & _ & _ & _ & _ & Hresolve & Hurl & Htext & _ & _ & _ & Hchecks).
  exists anchor, actionUrl.
  assert (Hsite : actionUrl = swap_site) by (simpl in Hresolve; congruence).
  subst actionUrl. repeat split; auto.
Defined.

(** X5.  A container mounted by the observer, read against the registry
    snapshot the observer checked, passes the container's own admission
    check, which on such a container coincides with the conjunction of the
    action-level and the origin-level check; so it starts [blocked] exactly
    when the merged level is [malicious].  The preconditions: the fetched
    action carries the URL it was fetched from, and the expanded link is
    not the empty string. *)
Theorem X5_observed_container_passes :
  forall (shared : Shared) (api : Api) (utils : Utils)
         (network : Network) (registry : ActionsRegistry)
         (element : Element) (config : ActionAdapter)
         (options : NormalizedSecurityLevel)
         (rootElement : Element) (props : Props) (websiteText : string),
    (forall requested fetched,
        fetchAction network requested config = Some fetched ->
        Action.url fetched = requested) ->
    truthy (websiteUrl props) = true ->
    handleNewNode network registry registry element config options
    = Returns (Mounted rootElement props websiteText) ->
    checkSecurityFromActionState (fresh_state props registry)
      (normalizedSecurityLevel (securityLevel props)) = true
    /\ spec_admission (fresh_state props registry)
         (normalizedSecurityLevel (securityLevel props)) = true
    /\ (status (executionState (mount props registry)) = blocked <->
        overallState (fresh_state props registry) = malicious).
Proof.
  intros shared api utils network registry element config options
    rootElement props websiteText Hfetched Htruthy Hmounted.
  apply handleNewNode_mounted in Hmounted.
  destruct Hmounted
    as (linkPreview & anchor & actionUrl & actionApiUrl
        & _ & _ & _ & _ & _ & Hurl & _ & Hlevel & Hfetch & _ & Hchecks).
  apply Hfetched in Hfetch.
  assert (Hspec : spec_admission (fresh_state props registry)
                    (normalizedSecurityLevel (securityLevel props)) = true).
  { unfold spec_admission, fresh_state, getOverallActionState.
    rewrite Htruthy, Hurl, Hlevel, Hfetch. simpl.
    destruct (isInterstitial (url_href actionUrl)); simpl;
      destruct Hchecks as (_ & Horigin & Haction); now rewrite Haction, Horigin. }
  assert (Hcode : checkSecurityFromActionState (fresh_state props registry)
                    (normalizedSecurityLevel (securityLevel props)) = true).
  { rewrite check_agrees_when_action_passes; [exact Hspec|].
    unfold spec_admission in Hspec. apply andb_true_iff in Hspec. tauto. }
  split; [exact Hcode|]. split; [exact Hspec|].
  unfold mount, initial_status; simpl.
  change (getOverallActionState registry (action props) (websiteUrl props))
    with (fresh_state props registry).
  rewrite Hcode, andb_true_r, <- state_eqb_eq.
  destruct (state_eqb (overallState (fresh_state props registry)) malicious);
    simpl; split; congruence.
Qed.

Lemma X5_witness :
  checkSecurityFromActionState (fresh_state observed_props all_trusted)
    (normalizedSecurityLevel (securityLevel observed_props)) = true.
Proof.
  apply (X5_observed_container_passes spec_Shared spec_Api sample_Utils
           sample_network all_trusted (tweet_card "https://t.co/abc") happy_adapter
           (normalizeOptions None)
           (El "div" (Some "card.wrapper") None
              [El "div" None None [El "a" None (Some "https://t.co/abc") []]])
           observed_props "example.org").
  - intros requested fetched Hfetch. simpl in Hfetch.
    destruct (String.eqb requested "https://example.org/api/swap") eqn:Hsame;
      [|discriminate].
    apply String.eqb_eq in Hsame. inversion Hfetch; subst. reflexivity.
  - reflexivity.
  - reflexivity.
Defined.

(** ** The container between mount and click *)

Section ContainerFacts.
Context `{Shared} `{Api} `{Utils}.
Variable props : Props.

Lemma clickable_idle (c : Controller) (it : ActionComponent.t) :
  clickable props c it ->
  status (executionState c) = idle /\ Action.disabled (action props) = false.
Proof.
  intros [_ Henabled]. unfold asButtonProps in Henabled; simpl in Henabled.
  apply orb_false_iff in Henabled. destruct Henabled as [Hdisabled Hidle].
  apply negb_false_iff, status_eqb_eq in Hidle. auto.
Qed.

(** Two classifications read for the same props carry the same origin
    source; equal levels make them equal. *)
Lemma fresh_state_same_levels (registry registry' : ActionsRegistry) :
  state_action (fresh_state props registry) = state_action (fresh_state props registry') ->
  origin_level (fresh_state props registry) = origin_level (fresh_state props registry') ->
  fresh_state props registry = fresh_state props registry'.
Proof.
  unfold fresh_state, getOverallActionState, origin_level.
  destruct (truthy (websiteUrl props)); simpl; [|congruence].
  destruct (websiteUrl props) as [url|]; simpl; [|congruence].
  destruct (isInterstitial url); simpl; congruence.
Qed.

(** The stored classification is always one that was read whole from the
    registry, and outside [blocked] it passes the admission check. *)
Lemma reachable_stored (c : Controller) :
  reachable props c ->
  (exists registry, actionState c = fresh_state props registry)
  /\ (status (executionState c) <> blocked -> isPassingSecurityCheck props c = true).
Proof.
  induction 1 as [registry
                 | c Hreach [Hread Hpass] Hoffered
                 | c registry component params values Hreach [Hread Hpass] Hclick
                 | c registry component params values Hreach [Hread Hpass] Hclick].
  - split; [now exists registry|].
    unfold mount, isPassingSecurityCheck, initial_status; simpl.
    destruct (checkSecurityFromActionState _ _); [reflexivity|].
    rewrite andb_false_r. congruence.
  - split; [exact Hread|]. intros _.
    apply override_offered_iff in Hoffered. unfold isPassingSecurityCheck in *.
    simpl. tauto.
  - destruct (clickable_idle c component Hclick) as [Hidle _].
    destruct (click_cases props registry c values component params)
      as [(_ & -> & _) | (_ & -> & _)]; simpl.
    + split; [now exists registry | congruence].
    + split; [exact Hread|]. intros _. apply Hpass. congruence.
  - destruct (clickable_idle c component Hclick) as [Hidle _].
    destruct (click_cases props registry c values component params)
      as [(_ & _ & ->) | (_ & _ & Hsame & Hsettled)]; simpl.
    + split; [now exists registry | congruence].
    + rewrite Hsame. split; [exact Hread|]. intros _.
      unfold isPassingSecurityCheck in *. rewrite Hsame. apply Hpass. congruence.
Qed.

End ContainerFacts.

(** X6.  In every reachable state the stored trust classification is one
    that was read whole from the registry, and whenever the status is not
    [blocked] (idle, executing, success, error) it passes the container's
    admission check: a stored classification that fails the check is only
    ever seen in [blocked]. *)
Theorem X6_unblocked_states_pass_the_check :
  forall (shared : Shared) (api : Api) (utils : Utils)
         (props : Props) (c : Controller),
    reachable props c ->
    (exists registry, actionState c = fresh_state props registry)
    /\ (status (executionState c) <> blocked ->
        checkSecurityFromActionState (actionState c)
          (normalizedSecurityLevel (securityLevel props)) = true)
    /\ (checkSecurityFromActionState (actionState c)
          (normalizedSecurityLevel (securityLevel props)) = false ->
        status (executionState c) = blocked).
Proof.
  intros shared api utils props c Hreach.
  destruct (reachable_stored props c Hreach) as [Hread Hpass].
  unfold isPassingSecurityCheck in Hpass.
  split; [exact Hread|]. split; [exact Hpass|].
  intros Hfails.
  destruct (status (executionState c)) eqn:Hs; try reflexivity;
    rewrite Hpass in Hfails; congruence.
Qed.

Lemma X6_witness :
  checkSecurityFromActionState (actionState staking)
    (normalizedSecurityLevel (securityLevel strict_direct)) = true.
Proof.
  assert (Hreach : reachable strict_direct staking).
  { unfold staking. apply reach_click.
    - apply reach_mount.
    - split; [right; left; reflexivity | reflexivity]. }
  destruct (X6_unblocked_states_pass_the_check spec_Shared spec_Api sample_Utils
              strict_direct staking Hreach) as (_ & Hpass & _).
  apply Hpass. discriminate.
Defined.

(** X7.  In a reachable state, for a control that can be clicked, the
    comparison of the fresh levels with the stored ones never decides: the
    click is blocked exactly when the fresh classification fails the
    admission check, and it is let through exactly when it passes. *)
Theorem X7_click_blocked_iff_fresh_check_fails :
  forall (shared : Shared) (api : Api) (utils : Utils)
         (props : Props) (c : Controller) (registry : ActionsRegistry)
         (values : nat -> option string) (component : ActionComponent.t)
         (params : option (string -> option string)),
    reachable props c ->
    clickable props c component ->
    (fst (execute_guard props registry component params (start c values)) = Return <->
     checkSecurityFromActionState (fresh_state props registry)
       (normalizedSecurityLevel (securityLevel props)) = false)
    /\ (fst (execute_guard props registry component params (start c values)) = Normal tt <->
        checkSecurityFromActionState (fresh_state props registry)
          (normalizedSecurityLevel (securityLevel props)) = true).
Proof.
  intros shared api utils props c registry values component params Hreach Hclick.
  destruct (reachable_stored props c Hreach) as [[stored Hread] Hpass].
  destruct (clickable_idle props c component Hclick) as [Hidle _].
  assert (Hstored : checkSecurityFromActionState (actionState c)
                      (normalizedSecurityLevel (securityLevel props)) = true).
  { apply Hpass. congruence. }
  assert (Hblock : must_block props (actionState c) (fresh_state props registry)
                   = negb (checkSecurityFromActionState (fresh_state props registry)
                             (normalizedSecurityLevel (securityLevel props)))).
  { destruct (checkSecurityFromActionState (fresh_state props registry) _) eqn:Hfresh.
    - unfold must_block. rewrite Hfresh. apply andb_false_r.
    - apply must_block_true_iff. split; [|exact Hfresh].
      destruct (state_eqb (state_action (fresh_state props registry))
                  (state_action (actionState c))) eqn:Haction;
        [|left; now apply state_eqb_neq].
      apply state_eqb_eq in Haction. right. intros Horigin.
      rewrite Hread in Haction, Horigin.
      rewrite Hread, <- (fresh_state_same_levels props _ _ Haction Horigin) in Hstored.
      congruence. }
  destruct (checkSecurityFromActionState (fresh_state props registry) _) eqn:Hfresh;
    simpl in Hblock.
  - destruct (execute_guard_passes props registry c values component params Hblock)
      as [values' ->]. simpl. split; split; congruence.
  - destruct (execute_guard_blocks props registry c values component params Hblock)
      as [values' ->]. simpl. split; split; congruence.
Qed.

Lemma X7_witness :
  fst (execute_guard (website_props happy_adapter only_trusted)
         (registry_of trusted trusted malicious) swap_button None
         (start (mount (website_props happy_adapter only_trusted) all_trusted) no_values))
  = Return.
Proof.
  apply (X7_click_blocked_iff_fresh_check_fails spec_Shared spec_Api sample_Utils
           (website_props happy_adapter only_trusted)
           (mount (website_props happy_adapter only_trusted) all_trusted)
           (registry_of trusted trusted malicious) no_values swap_button None).
  - apply reach_mount.
  - split; [left; reflexivity | reflexivity].
  - reflexivity.
Defined.

(** X8.  For a container without [websiteUrl], or with the empty string,
    the classification has no origin; the admission check then passes
    whatever the registry says and whatever the security level is, a click
    is never blocked, and the container starts [blocked] only if the
    action's own level merges to [malicious]. *)
Theorem X8_direct_reference_ignores_policy :
  forall (shared : Shared) (api : Api) (utils : Utils)
         (props : Props) (registry : ActionsRegistry) (c : Controller),
    truthy (websiteUrl props) = false ->
    fresh_state props registry
    = mkActionState (getExtendedActionState registry (Action.url (action props))) None
    /\ checkSecurityFromActionState (fresh_state props registry)
         (normalizedSecurityLevel (securityLevel props)) = true
    /\ must_block props (actionState c) (fresh_state props registry) = false
    /\ status (executionState (mount props registry))
       = (if state_eqb
               (mergeActionStates
                  [getExtendedActionState registry (Action.url (action props))])
               malicious
          then blocked else idle).
Proof.
  intros shared api utils props registry c Hfalsy.
  assert (Hfresh : fresh_state props registry
                   = mkActionState
                       (getExtendedActionState registry (Action.url (action props))) None).
  { unfold fresh_state, getOverallActionState. now rewrite Hfalsy. }
  split; [exact Hfresh|].
  assert (Hcheck : checkSecurityFromActionState (fresh_state props registry)
                     (normalizedSecurityLevel (securityLevel props)) = true).
  { rewrite Hfresh. apply check_without_origin. }
  split; [exact Hcheck|]. split.
  - unfold must_block. rewrite Hcheck. apply andb_false_r.
  - unfold mount, initial_status; simpl.
    change (getOverallActionState registry (action props) (websiteUrl props))
      with (fresh_state props registry).
    rewrite Hcheck, andb_true_r, Hfresh. unfold overallState, origin_level; simpl.
    now destruct (state_eqb _ malicious).
Qed.

Lemma X8_witness :
  checkSecurityFromActionState
    (fresh_state (direct_props happy_adapter only_trusted) (registry_of unknown trusted trusted))
    (normalizedSecurityLevel (securityLevel (direct_props happy_adapter only_trusted)))
  = true
  /\ status (executionState
               (mount (direct_props happy_adapter only_trusted)
                  (registry_of unknown trusted trusted)))
     = idle.
Proof.
  destruct (X8_direct_reference_ignores_policy spec_Shared spec_Api sample_Utils
              (direct_props happy_adapter only_trusted)
              (registry_of unknown trusted trusted)
              (mount (direct_props happy_adapter only_trusted)
                 (registry_of unknown trusted trusted))
              eq_refl) as (_ & Hcheck & _ & Hstatus).
  split; [exact Hcheck | exact Hstatus].
Defined.

(** X9.  A control can be clicked only in [idle] and only while the action
    is not disabled, and the override is offered only in [blocked]; so in
    [executing], [success] and [error] nothing can be triggered: no second
    run starts while one is in flight, and a failed or completed run is
    not retried from the container.  An input with no text typed cannot be
    submitted in any state. *)
Theorem X9_nothing_triggers_outside_idle_and_blocked :
  forall (shared : Shared) (api : Api) (utils : Utils)
         (props : Props) (c : Controller) (it : ActionComponent.t),
    (clickable props c it ->
     status (executionState c) = idle /\ Action.disabled (action props) = false)
    /\ (offers_override (rendered_disclaimer props c) = true ->
        status (executionState c) = blocked)
    /\ (status (executionState c) = executing
        \/ status (executionState c) = success
        \/ status (executionState c) = error ->
        ~ clickable props c it
        /\ offers_override (rendered_disclaimer props c) = false)
    /\ button_disabled
         (ActionInput_button (asInputProps (action props) (executionState c) it) "")
       = true.
Proof.
  intros shared api utils props c it.
  split; [apply clickable_idle|].
  split; [intros Hoffered; apply override_offered_iff in Hoffered; tauto|].
  split.
  - intros Hstatus. split.
    + intros Hclick. apply clickable_idle in Hclick.
      destruct Hclick as [Hidle _]. rewrite Hidle in Hstatus.
      destruct Hstatus as [Hs | [Hs | Hs]]; discriminate.
    + apply not_true_is_false. intros Hoffered.
      apply override_offered_iff in Hoffered.
      destruct Hoffered as (_ & Hblocked & _). rewrite Hblocked in Hstatus.
      destruct Hstatus as [Hs | [Hs | Hs]]; discriminate.
  - simpl. apply orb_true_r.
Qed.

Lemma X9_witness :
  ~ clickable strict_direct staking stake_button.
Proof.
  destruct (X9_nothing_triggers_outside_idle_and_blocked spec_Shared spec_Api
              sample_Utils strict_direct staking stake_button)
    as (_ & _ & Hbusy & _).
  apply Hbusy. left. reflexivity.
Defined.

(** X10.  What a reachable container shows in its message lines.  In
    [success]: the success message if it is not empty, and never an error
    line, even when the action carries an error of its own.  In [error]:
    the thrown message if it is not empty, and no success line.  In
    [idle], [blocked] and [executing]: no success line, and the action's
    own error if it has a non-empty one. *)
Theorem X10_message_lines_by_status :
  forall (shared : Shared) (api : Api) (utils : Utils)
         (props : Props) (c : Controller),
    reachable props c ->
    match status (executionState c) with
    | success =>
        ActionLayout_messages (error_prop (action props) (executionState c))
          (success_prop (executionState c))
        = {| success_line :=
               if truthy (successMessage (executionState c))
               then successMessage (executionState c) else None;
             error_line := None |}
    | error =>
        exists thrown,
          errorMessage (executionState c) = Some thrown
          /\ ActionLayout_messages (error_prop (action props) (executionState c))
               (success_prop (executionState c))
             = {| success_line := None;
                  error_line := if String.eqb thrown "" then None else Some thrown |}
    | _ =>
        ActionLayout_messages (error_prop (action props) (executionState c))
          (success_prop (executionState c))
        = {| success_line := None;
             error_line :=
               if truthy (Action.error (action props))
               then Action.error (action props) else None |}
    end.
Proof.
  intros shared api utils props c Hreach.
  pose proof (reachable_shape props c Hreach) as Hshape.
  unfold ActionLayout_messages, error_prop, success_prop.
  destruct (status (executionState c)) eqn:Hs.
  - rewrite Hshape; simpl. now rewrite andb_true_r.
  - rewrite Hshape; simpl. now rewrite andb_true_r.
  - destruct Hshape as [e ->]; simpl. now rewrite andb_true_r.
  - destruct Hshape as (e & msg & ->); simpl. reflexivity.
  - destruct Hshape as (e & msg & ->); simpl. exists msg.
    split; [reflexivity|]. rewrite andb_true_r. now destruct (String.eqb msg "").
Qed.

Lemma X10_witness :
  ActionLayout_messages
    (error_prop (action strict_direct) (executionState staking))
    (success_prop (executionState staking))
  = {| success_line := None; error_line := None |}.
Proof.
  assert (Hreach : reachable strict_direct staking).
  { unfold staking. apply reach_click.
    - apply reach_mount.
    - split; [right; left; reflexivity | reflexivity]. }
  exact (X10_message_lines_by_status spec_Shared spec_Api sample_Utils
           strict_direct staking Hreach).
Defined.

(** X11.  What the rendered buttons of a reachable container look like.
    While executing, every rendered button and input button is the loading
    one: label "Executing" with the spinner, disabled.  After success it
    reads "Completed" with the check mark, after a failure "Failed"; in
    [idle] and [blocked] it carries the component's own label. *)
Theorem X11_button_face_by_status :
  forall (shared : Shared) (api : Api) (utils : Utils)
         (props : Props) (c : Controller) (it : ActionComponent.t),
    reachable props c ->
    In it (rendered props c) ->
    ActionButton (asButtonProps (action props) (executionState c) it)
    = match status (executionState c) with
      | executing => SpinnerContent "Executing"
      | success => CheckContent "Completed"
      | error => TextContent "Failed"
      | _ => TextContent (ActionComponent.label it)
      end
    /\ (status (executionState c) <> idle ->
        button_disabled (asButtonProps (action props) (executionState c) it) = true).
Proof.
  intros shared api utils props c it Hreach Hin.
  pose proof (reachable_shape props c Hreach) as Hshape.
  split.
  - unfold ActionButton, asButtonProps; simpl.
    destruct (status (executionState c)) eqn:Hs; simpl; try reflexivity.
    destruct Hshape as [e Hstate].
    assert (Hexecuting : executingAction (executionState c) = Some e)
      by now rewrite Hstate.
    rewrite Hexecuting. unfold ActionComponent.same.
    rewrite (rendered_is_executing props c e it Hexecuting Hin), Nat.eqb_refl.
    reflexivity.
  - intros Hbusy. unfold asButtonProps; simpl.
    destruct (status (executionState c)); simpl; try apply orb_true_r. congruence.
Qed.

Lemma X11_witness :
  ActionButton (asButtonProps (action strict_direct) (executionState staking) stake_button)
  = SpinnerContent "Executing".
Proof.
  assert (Hreach : reachable strict_direct staking).
  { unfold staking. apply reach_click.
    - apply reach_mount.
    - split; [right; left; reflexivity | reflexivity]. }
  apply (X11_button_face_by_status spec_Shared spec_Api sample_Utils
           strict_direct staking stake_button Hreach).
  left. reflexivity.
Defined.

(** X12.  Once the user has taken the override, the container is [idle],
    its stored classification is unchanged, and the disclaimer is gone
    altogether, although the layout still shows the "Blocked" badge; the
    controls are then enabled unless the action itself is disabled. *)
Theorem X12_override_drops_the_disclaimer :
  forall (shared : Shared) (api : Api) (utils : Utils)
         (props : Props) (c : Controller),
    offers_override (rendered_disclaimer props c) = true ->
    actionState (override c) = actionState c
    /\ rendered_disclaimer props (override c) = NoDisclaimer
    /\ ActionLayout_badge (overallState (actionState (override c))) = BlockedBadge
    /\ (forall it,
          button_disabled (asButtonProps (action props) (executionState (override c)) it)
          = Action.disabled (action props)).
Proof.
  intros shared api utils props c Hoffered.
  apply override_offered_iff in Hoffered. destruct Hoffered as (Hmal & _ & _).
  split; [reflexivity|]. split; [|split].
  - unfold rendered_disclaimer, disclaimer; simpl. now rewrite Hmal.
  - simpl. now rewrite Hmal.
  - intros it. simpl. apply orb_false_r.
Qed.

Lemma X12_witness :
  rendered_disclaimer strict_direct (override (mount strict_direct flagged_action))
  = NoDisclaimer.
Proof.
  apply (X12_override_drops_the_disclaimer spec_Shared spec_Api sample_Utils
           strict_direct (mount strict_direct flagged_action)).
  reflexivity.
Defined.

Section SubmitFacts.
Context `{Shared} `{Api} `{Utils}.

(** The guard leaves the parameter values as [submit_params] set them. *)
Lemma execute_guard_values (props : Props) (registry : ActionsRegistry)
  (component : ActionComponent.t) (params : option (string -> option string))
  (w : World) :
  values (snd (execute_guard props registry component params w))
  = values (snd (submit_params component params w)).
Proof.
  unfold execute_guard, bind.
  destruct (submit_params_frame component params w) as [values' ->]. simpl.
  now destruct (must_block props (actionState (controller w)) (fresh_state props registry)).
Qed.

End SubmitFacts.

(** X13.  Submitting an input hands the typed text to the right component:
    for a component with a parameter, the click of its input with text
    [typed] stores [typed] as that component's value before any step runs,
    and leaves the value of every other component alone; the click of a
    plain button (no argument) changes no value. *)
Theorem X13_input_text_reaches_the_component :
  forall (shared : Shared) (utils : Utils)
         (props : Props) (registry : ActionsRegistry) (c : Controller)
         (values0 : nat -> option string) (it : ActionComponent.t)
         (parameter : ActionParameter) (typed : string),
    ActionComponent.parameter it = Some parameter ->
    values
      (snd (execute_guard props registry it
              (ActionInput_params (asInputProps (action props) (executionState c) it) typed)
              (start c values0)))
      (ActionComponent.ref it) = Some typed
    /\ (forall other,
          other <> ActionComponent.ref it ->
          values
            (snd (execute_guard props registry it
                    (ActionInput_params
                       (asInputProps (action props) (executionState c) it) typed)
                    (start c values0)))
            other = values0 other)
    /\ (forall button,
          values (snd (execute_guard props registry button None (start c values0)))
          = values0).
Proof.
  intros shared utils props registry c values0 it parameter typed Hparameter.
  split; [|split].
  - rewrite execute_guard_values. unfold submit_params, ActionInput_params, asInputProps.
    rewrite Hparameter. simpl. now rewrite Nat.eqb_refl, String.eqb_refl.
  - intros other Hother. rewrite execute_guard_values.
    unfold submit_params, ActionInput_params, asInputProps.
    rewrite Hparameter. simpl.
    apply Nat.eqb_neq in Hother. now rewrite Hother.
  - intros button. rewrite execute_guard_values. unfold submit_params.
    now destruct (ActionComponent.parameter button).
Qed.

Lemma X13_witness :
  values
    (snd (execute_guard strict_direct all_trusted amount_input
            (ActionInput_params
               (asInputProps (action strict_direct)
                  (executionState (mount strict_direct all_trusted)) amount_input)
               "25")
            (start (mount strict_direct all_trusted) no_values)))
    3 = Some "25".
Proof.
  apply (X13_input_text_reaches_the_component spec_Shared sample_Utils
           strict_direct all_trusted (mount strict_direct all_trusted) no_values
           amount_input (mkActionParameter "amount" "Amount") "25").
  reflexivity.
Defined.

(** ** The order of the protocol steps *)

Lemma awaited_app (t1 t2 : list Effect) :
  awaited (t1 ++ t2) = (awaited t1 ++ awaited t2)%list.
Proof.
  induction t1 as [|[s | a | step] t1 IH]; simpl; [reflexivity| | |]; now rewrite IH.
Qed.

Lemma dispatched_app (t1 t2 : list Effect) :
  dispatched (t1 ++ t2) = (dispatched t1 ++ dispatched t2)%list.
Proof.
  induction t1 as [|[s | a | step] t1 IH]; simpl; [reflexivity| | |]; now rewrite IH.
Qed.

Lemma awaited_steps (steps : list Step) : awaited (map Await steps) = steps.
Proof. induction steps as [|s steps IH]; simpl; [reflexivity | now rewrite IH]. Qed.

Lemma dispatched_steps (steps : list Step) : dispatched (map Await steps) = [].
Proof. induction steps as [|s steps IH]; simpl; [reflexivity | exact IH]. Qed.

Section ProtocolTrace.
Variable props : Props.
Variable component : ActionComponent.t.

Ltac run_protocol :=
  unfold execute_protocol, try_catch, catch_handler, bind, await, throw,
    get_actionState, get_value, dispatch, return_, log; simpl.

Ltac answer Hcall :=
  unfold connect_result, post_result, sign_result, confirm_result in Hcall;
  simpl in Hcall; rewrite Hcall; simpl.

Ltac accept Hne := apply String.eqb_neq in Hne; rewrite Hne; simpl.

Ltac closes n closing :=
  exists n, closing; split; [lia|];
  split; [simpl; rewrite <- ?app_assoc; reflexivity|];
  split; [reflexivity|].

(** One run of the protocol part appends to the trace the awaited steps, a
    prefix of connect, post, sign, confirm, and then one closing dispatch,
    which decides the final state; the closing dispatch is missing
    exactly when the step that threw threw [null] or [undefined]. *)
Lemma protocol_trace (w : World) :
  exists (n : nat) (closing : option ActionValue),
    1 <= n <= 4
    /\ trace (snd (execute_protocol props component w))
       = (trace w ++ map Await (firstn n protocol_order)
          ++ match closing with
             | Some final => [Dispatch final]
             | None => []
             end)%list
    /\ executionState (controller (snd (execute_protocol props component w)))
       = match closing with
         | Some final => executionReducer (executionState (controller w)) final
         | None => executionState (controller w)
         end
    /\ match closing with
       | Some final =>
           ~ throws props w component ThrownNullish
           /\ (final = RESET /\ (n = 1 \/ n = 3)
               \/ (exists thrown, final = FAIL thrown)
               \/ (exists successMessage, final = FINISH successMessage) /\ n = 4)
       | None => throws props w component ThrownNullish
       end.
Proof.
  assert (Hexclusive : forall thrown thrown',
             throws props w component thrown ->
             throws props w component thrown' -> thrown = thrown').
  { intros thrown thrown' [] []; congruence. }
  assert (Hdeclined : declines props w component ->
                      ~ throws props w component ThrownNullish).
  { intros [] []; congruence. }
  assert (Hcompleted : forall tx, completes props w component tx ->
                                  ~ throws props w component ThrownNullish).
  { intros tx [] []; congruence. }
  destruct (protocol_scenarios props component w) as [Hd | [[thrown Ht] | [tx Hc]]].
  - pose proof (Hdeclined Hd) as Hnot.
    destruct Hd as [Hconnect
                   | Hconnect
                   | account tx Hconnect Hne Hpost Hsign
                   | account tx reason Hconnect Hne Hpost Hsign];
      run_protocol; answer Hconnect.
    + closes 1 (Some RESET). split; [exact Hnot | left; auto].
    + closes 1 (Some RESET). split; [exact Hnot | left; auto].
    + accept Hne. answer Hpost. answer Hsign.
      closes 3 (Some RESET). split; [exact Hnot | left; auto].
    + accept Hne. answer Hpost. answer Hsign.
      closes 3 (Some RESET). split; [exact Hnot | left; auto].
  - pose proof Ht as Hthrown.
    destruct thrown as [|e];
      destruct Ht as [Hconnect
                     | account Hconnect Hne Hpost
                     | account tx Hconnect Hne Hpost Hsign
                     | account tx signature Hconnect Hne Hpost Hsign Hconfirm];
      run_protocol; answer Hconnect;
      try (accept Hne; answer Hpost); try answer Hsign; try answer Hconfirm.
    + closes 1 (@None ActionValue). exact Hthrown.
    + closes 2 (@None ActionValue). exact Hthrown.
    + closes 3 (@None ActionValue). exact Hthrown.
    + closes 4 (@None ActionValue). exact Hthrown.
    + closes 1 (Some (FAIL (nullish (message e) "Unknown error"))).
      split; [intros Habs; discriminate (Hexclusive _ _ Hthrown Habs) | eauto].
    + closes 2 (Some (FAIL (nullish (message e) "Unknown error"))).
      split; [intros Habs; discriminate (Hexclusive _ _ Hthrown Habs) | eauto].
    + closes 3 (Some (FAIL (nullish (message e) "Unknown error"))).
      split; [intros Habs; discriminate (Hexclusive _ _ Hthrown Habs) | eauto].
    + closes 4 (Some (FAIL (nullish (message e) "Unknown error"))).
      split; [intros Habs; discriminate (Hexclusive _ _ Hthrown Habs) | eauto].
  - pose proof (Hcompleted tx Hc) as Hnot.
    destruct Hc as [account signature Hconnect Htruthy Hpost Hsign Hconfirm].
    run_protocol. answer Hconnect. rewrite Htruthy. simpl.
    answer Hpost. answer Hsign. answer Hconfirm.
    closes 4 (Some (FINISH (post_message tx))). split; [exact Hnot | eauto].
Qed.

End ProtocolTrace.

Section TraceFacts.
Context `{Shared} `{Api} `{Utils}.

(** The whole handler, from a click: either the guard blocks, or INITIATE
    is followed by a prefix of the four steps and the closing dispatch, if
    there is one. *)
Lemma execute_trace (props : Props) (registry : ActionsRegistry) (c : Controller)
  (values : nat -> option string) (component : ActionComponent.t)
  (params : option (string -> option string)) :
  (fst (execute_guard props registry component params (start c values)) = Return
   /\ trace (snd (execute props registry component params (start c values)))
      = [SetActionState (fresh_state props registry); Dispatch BLOCK]
   /\ executionState
        (controller (snd (execute props registry component params (start c values))))
      = only_status blocked)
  \/ exists (n : nat) (closing : option ActionValue),
       1 <= n <= 4
       /\ fst (execute_guard props registry component params (start c values))
          = Normal tt
       /\ trace (snd (execute props registry component params (start c values)))
          = (Dispatch (INITIATE component None)
             :: map Await (firstn n protocol_order)
             ++ match closing with
                | Some final => [Dispatch final]
                | None => []
                end)%list
       /\ executionState
            (controller (snd (execute props registry component params (start c values))))
          = match closing with
            | Some final =>
                executionReducer (mkExecution executing (Some component) None None) final
            | None => mkExecution executing (Some component) None None
            end
       /\ match closing with
          | Some final =>
              ~ throws props
                  (snd (execute_guard props registry component params (start c values)))
                  component ThrownNullish
              /\ (final = RESET /\ (n = 1 \/ n = 3)
                  \/ (exists thrown, final = FAIL thrown)
                  \/ (exists successMessage, final = FINISH successMessage) /\ n = 4)
          | None =>
              throws props
                (snd (execute_guard props registry component params (start c values)))
                component ThrownNullish
          end.
Proof.
  destruct (must_block props (actionState c) (fresh_state props registry)) eqn:Hblock.
  - left.
    destruct (execute_guard_blocks props registry c values component params Hblock)
      as [values' Hguard].
    rewrite (execute_after_return props registry component params _ _ Hguard).
    rewrite Hguard. repeat split.
  - right.
    destruct (execute_guard_passes props registry c values component params Hblock)
      as [values' Hguard].
    rewrite (execute_after_initiate props registry component params _ _ Hguard).
    rewrite Hguard.
    destruct (protocol_trace props component
                {| controller :=
                     {| actionState := actionState c;
                        executionState := mkExecution executing (Some component) None None |};
                   values := values';
                   trace := [Dispatch (INITIATE component None)] |})
      as (n & closing & Hn & Htrace & Hstate & Hclosing).
    exists n, closing. simpl in Htrace, Hstate. simpl. auto.
Qed.

End TraceFacts.

(** X14.  Whatever the wallet and the network answer, the steps one run of
    [execute] awaits are a prefix of connect, post, sign, confirm, in that
    order and each at most once; a run that ends in [success] has awaited
    all four, and a run that the guard blocks has awaited none. *)
Theorem X14_steps_run_in_order :
  forall (shared : Shared) (utils : Utils)
         (props : Props) (registry : ActionsRegistry) (c : Controller)
         (values : nat -> option string) (component : ActionComponent.t)
         (params : option (string -> option string)),
    (exists n,
        awaited (trace (snd (execute props registry component params (start c values))))
        = firstn n protocol_order)
    /\ (status
          (executionState
             (controller (snd (execute props registry component params (start c values)))))
        = success ->
        awaited (trace (snd (execute props registry component params (start c values))))
        = protocol_order)
    /\ (status
          (executionState
             (controller (snd (execute props registry component params (start c values)))))
        = blocked ->
        awaited (trace (snd (execute props registry component params (start c values))))
        = []).
Proof.
  intros shared utils props registry c values component params.
  destruct (execute_trace props registry c values component params)
    as [(_ & -> & ->) | (n & closing & Hn & _ & -> & -> & Hclosing)]; simpl.
  - split; [now exists 0|]. split; [discriminate | reflexivity].
  - rewrite awaited_app, awaited_steps.
    assert (Hnone : awaited match closing with
                            | Some final => [Dispatch final]
                            | None => []
                            end = []) by now destruct closing.
    rewrite Hnone, app_nil_r.
    split; [now exists n|].
    destruct closing as [final|]; [|split; discriminate].
    destruct Hclosing as [_ [[-> _] | [[thrown ->] | [[msg ->] ->]]]]; simpl;
      split; try discriminate; reflexivity.
Qed.

Lemma X14_witness :
  awaited
    (trace (snd (execute strict_direct all_trusted swap_button None
                   (start (mount strict_direct all_trusted) no_values))))
  = [Connect; Post; SignTransaction; ConfirmTransaction].
Proof.
  apply (X14_steps_run_in_order spec_Shared sample_Utils strict_direct all_trusted
           (mount strict_direct all_trusted) no_values swap_button None).
  reflexivity.
Defined.

(** X15.  How a run of [execute] ends.  It dispatches BLOCK alone; or
    INITIATE followed by exactly one of RESET, FAIL and FINISH, which
    takes the container out of [executing]; or, exactly when the step
    that throws throws [null] or [undefined], INITIATE alone: the catch
    block throws while reading the message, and the container is left in
    [executing] with no message after the handler has ended.  So a run
    that no step rejects with [null] or [undefined] never leaves the
    container in [executing]. *)
Theorem X15_runs_settle_unless_nullish_rejection :
  forall (shared : Shared) (utils : Utils)
         (props : Props) (registry : ActionsRegistry) (c : Controller)
         (values : nat -> option string) (component : ActionComponent.t)
         (params : option (string -> option string)),
    (dispatched (trace (snd (execute props registry component params (start c values))))
     = [BLOCK]
     /\ status
          (executionState
             (controller (snd (execute props registry component params (start c values)))))
        = blocked
     \/ (exists final,
            dispatched
              (trace (snd (execute props registry component params (start c values))))
            = [INITIATE component None; final]
            /\ (final = RESET
                \/ (exists thrown, final = FAIL thrown)
                \/ (exists successMessage, final = FINISH successMessage))
            /\ status
                 (executionState
                    (controller
                       (snd (execute props registry component params (start c values)))))
               <> executing
            /\ ~ throws props
                   (snd (execute_guard props registry component params (start c values)))
                   component ThrownNullish)
     \/ (dispatched
           (trace (snd (execute props registry component params (start c values))))
         = [INITIATE component None]
         /\ executionState
              (controller
                 (snd (execute props registry component params (start c values))))
            = mkExecution executing (Some component) None None
         /\ throws props
              (snd (execute_guard props registry component params (start c values)))
              component ThrownNullish))
    /\ (~ throws props
            (snd (execute_guard props registry component params (start c values)))
            component ThrownNullish ->
        status
          (executionState
             (controller (snd (execute props registry component params (start c values)))))
        <> executing).
Proof.
  intros shared utils props registry c values component params.
  destruct (execute_trace props registry c values component params)
    as [(_ & -> & ->) | (n & closing & Hn & _ & -> & -> & Hclosing)]; simpl.
  - split; [left; split; reflexivity | discriminate].
  - rewrite dispatched_app, dispatched_steps. simpl.
    destruct closing as [final|]; simpl.
    + destruct Hclosing as [Hnot Hfinal].
      assert (Hsettled : status
                           (executionReducer
                              (mkExecution executing (Some component) None None) final)
                         <> executing).
      { destruct Hfinal as [[-> _] | [[thrown ->] | [[msg ->] _]]]; discriminate. }
      split; [|intros _; exact Hsettled].
      right; left. exists final. repeat split; try assumption.
      destruct Hfinal as [[-> _] | [[thrown ->] | [[msg ->] _]]]; eauto.
    + split; [right; right; repeat split; assumption|].
      intros Hnot. contradiction.
Qed.

(** X15 on a wallet that connects, signs and confirms, where nothing is
    thrown: the run does not end in [executing]. *)
Lemma X15_witness :
  status
    (executionState
       (controller
          (snd (execute strict_direct all_trusted swap_button None
                  (start (mount strict_direct all_trusted) no_values)))))
  <> executing.
Proof.
  apply (X15_runs_settle_unless_nullish_rejection spec_Shared sample_Utils
           strict_direct all_trusted (mount strict_direct all_trusted)
           no_values swap_button None).
  intros Hthrows. inversion Hthrows; discriminate.
Defined.

(** X16.  [execute] never blocks a click on account of the action's own
    level.  When the guard blocks, the fresh classification has an origin
    whose level fails the policy of its source while the action's fresh
    level passes the [actions] policy; and whenever the action's fresh
    level fails the [actions] policy, the click goes through to INITIATE,
    whatever the origin. *)
Theorem X16_guard_blocks_only_on_origin :
  forall (shared : Shared) (utils : Utils)
         (props : Props) (registry : ActionsRegistry) (c : Controller)
         (values : nat -> option string) (component : ActionComponent.t)
         (params : option (string -> option string)),
    (fst (execute_guard props registry component params (start c values)) = Return ->
     checkSecurity (state_action (fresh_state props registry))
       (normalizedSecurityLevel (securityLevel props) actions) = true
     /\ exists origin originType,
          state_origin (fresh_state props registry) = Some (origin, originType)
          /\ checkSecurity origin
               (normalizedSecurityLevel (securityLevel props) originType) = false)
    /\ (checkSecurity (state_action (fresh_state props registry))
          (normalizedSecurityLevel (securityLevel props) actions) = false ->
        fst (execute_guard props registry component params (start c values)) = Normal tt
        /\ executionState
             (controller
                (snd (execute_guard props registry component params (start c values))))
           = mkExecution executing (Some component) None None).
Proof.
  intros shared utils props registry c values component params. split.
  - intros Hreturn.
    destruct (must_block props (actionState c) (fresh_state props registry)) eqn:Hblock.
    + apply must_block_true_iff in Hblock. destruct Hblock as [_ Hfails].
      now apply check_false_iff in Hfails.
    + destruct (execute_guard_passes props registry c values component params Hblock)
        as [values' Hguard].
      rewrite Hguard in Hreturn. discriminate.
  - intros Hrejected.
    assert (Hblock : must_block props (actionState c) (fresh_state props registry) = false).
    { unfold must_block. rewrite (check_when_action_fails _ _ Hrejected).
      apply andb_false_r. }
    destruct (execute_guard_passes props registry c values component params Hblock)
      as [values' ->].
    split; reflexivity.
Qed.

(** X16 on a registry refresh that flags the action itself while the
    website stays trusted: under ['only-trusted'] the click still runs. *)
Lemma X16_witness :
  executionState
    (controller
       (snd (execute_guard (website_props happy_adapter only_trusted)
               (registry_of malicious trusted trusted) swap_button None
               (start (mount (website_props happy_adapter only_trusted) all_trusted)
                  no_values))))
  = mkExecution executing (Some swap_button) None None.
Proof.
  apply (X16_guard_blocks_only_on_origin spec_Shared sample_Utils
           (website_props happy_adapter only_trusted)
           (registry_of malicious trusted trusted)
           (mount (website_props happy_adapter only_trusted) all_trusted)
           no_values swap_button None).
  reflexivity.
Defined.
